(** * Beam report generator: statics evaluator and force table

    A shallow embedding of [generate_report.py]: the routine
    [compute_sfd_bmd], which evaluates support reactions, shear force and
    bending moment of a simply supported beam under point loads, and the
    parts of the script around it: the span and load list read from the
    input table, the table laid out as a LaTeX tabular, and the rounded
    coordinates of the two plots.

    Numbers.  The routine is embedded twice.  [compute_sfd_bmd] is the
    routine on Python floats, each float taken as an exact rational ([Q],
    with equality [Qeq], written [==]): statements about it are statements
    about the formulas the code evaluates, in exact arithmetic, and its
    true division raises on a zero divisor as Python's does.
    [compute_sfd_bmd_np] is the routine as the script calls it, with a
    NumPy scalar for the span and Python scalars for the loads: integer
    products wrap around in [int64] and true division yields [nan] or an
    infinity instead of raising.  Rounding is modelled in neither. *)

From Stdlib Require Import ZArith QArith Qround Qfield Lqa Lia PeanoNat.
From Stdlib Require Import List Permutation String.
Import ListNotations.

Local Open Scope Q_scope.

(** ** Python values and operations used by the script *)

Module Py.

(** The exceptions the modelled code can raise. *)
Inductive exn : Type :=
| ZeroDivisionError
| TableRowSizeError.

(** A computation either returns a value or raises. *)
Inductive result (A : Type) : Type :=
| Ok (a : A)
| Raise (e : exn).
Arguments Ok {A} a.
Arguments Raise {A} e.

Definition bind {A B} (m : result A) (k : A -> result B) : result B :=
  match m with
  | Ok a => k a
  | Raise e => Raise e
  end.

(** [x / y] on Python floats: raises when the divisor is zero. *)
Definition truediv (x y : Q) : result Q :=
  if Qeq_bool y 0 then Raise ZeroDivisionError else Ok (x / y).

(** The builtin [sum]: starts from [0] and adds from left to right. *)
Definition sum (l : list Q) : Q := fold_left Qplus l 0.

(** A list comprehension [[body for v in l]] whose body may raise:
    elements are evaluated in order, the first exception aborts. *)
Fixpoint list_comp {A B} (body : A -> result B) (l : list A)
  : result (list B) :=
  match l with
  | [] => Ok []
  | v :: l' =>
      bind (body v) (fun b =>
      bind (list_comp body l') (fun bs => Ok (b :: bs)))
  end.

(** [zip] of two lists. *)
Definition zip {A B} (l : list A) (l' : list B) : list (A * B) :=
  combine l l'.

End Py.

Import Py.

Notation "x <- m ;; k" := (Py.bind m (fun x => k))
  (at level 61, m at next level, right associativity).

(** ** NumPy *)

Module Np.

(** The integer [n] as a number. *)
Definition of_nat (n : nat) : Q := inject_Z (Z.of_nat n).

(** [arange(0, num)] *)
Definition arange (num : nat) : list Q := map of_nat (seq 0 num).

(** Overwrite the last entry of an array, [y[-1] = v]. *)
Definition set_last (y : list Q) (v : Q) : list Q :=
  match y with
  | [] => []
  | _ :: _ => removelast y ++ [v]
  end.

(** [numpy.linspace(start, stop, num)] with [endpoint=True], following
    NumPy's implementation: with [div = num - 1] and
    [step = (stop - start) / div], the array is [arange(0, num) * step +
    start], and its last entry is then overwritten with [stop].  When
    [div] is zero there is no step and the array is
    [arange(0, num) * (stop - start) + start]. *)
Definition linspace (start stop : Q) (num : nat) : list Q :=
  let div := (num - 1)%nat in
  let delta := stop - start in
  let y :=
    if Nat.ltb 0 div
    then let step := delta / of_nat div in
         map (fun i => i * step + start) (arange num)
    else map (fun i => i * delta + start) (arange num) in
  if Nat.ltb 1 num then set_last y stop else y.

End Np.

(** ** The statics evaluator *)

(** A point load [(position, magnitude)]. *)
Definition Load : Type := (Q * Q)%type.

(** Number of sample positions along the span. *)
Definition N_SAMPLES : nat := 400.

(** One pass of the inner loop body for the load [(a, P)]:
    [if xi >= a: V -= P; M -= P * (xi - a)]. *)
Definition apply_load (xi : Q) (VM : Q * Q) (f : Load) : Q * Q :=
  let '(V, M) := VM in
  let '(a, P) := f in
  if Qle_bool a xi then (V - P, M - P * (xi - a)) else (V, M).

(** The body of the outer loop at position [xi]: [V] starts at [R1], [M] at
    [R1 * xi], and the loads are visited in list order. *)
Definition sample_at (R1 : Q) (forces : list Load) (xi : Q) : Q * Q :=
  fold_left (apply_load xi) forces (R1, R1 * xi).

Definition shear_at (R1 : Q) (forces : list Load) (xi : Q) : Q :=
  fst (sample_at R1 forces xi).

Definition moment_at (R1 : Q) (forces : list Load) (xi : Q) : Q :=
  snd (sample_at R1 forces xi).

(** The outer loop: [shear] and [moment] start empty and receive one value
    per position, appended at the end. *)
Definition sample_loop (R1 : Q) (forces : list Load) (x : list Q)
  : list Q * list Q :=
  fold_left
    (fun (acc : list Q * list Q) xi =>
       let '(shear, moment) := acc in
       let '(V, M) := sample_at R1 forces xi in
       (shear ++ [V], moment ++ [M]))
    x ([], []).

(** [compute_sfd_bmd(length, forces)] on Python floats, returning
    [(x, shear, moment, R1, R2)]. *)
Definition compute_sfd_bmd (length : Q) (forces : list Load)
  : result (list Q * list Q * list Q * Q * Q) :=
  let x := Np.linspace 0 length N_SAMPLES in
  t1 <- list_comp (fun '(a, P) => truediv (P * (length - a)) length) forces ;;
  let R1 := Py.sum t1 in
  t2 <- list_comp (fun '(a, P) => truediv (P * a) length) forces ;;
  let R2 := Py.sum t2 in
  let '(shear, moment) := sample_loop R1 forces x in
  Ok (x, shear, moment, R1, R2).

(** ** The input table and its rendering *)

(** One row of the spreadsheet, with its two named columns. *)
Record RowData : Type := mkRow { Position : Q; Force : Q }.

(** The data frame read from the spreadsheet: its rows, in file order.
    A column [df[name]] is the list of that field over the rows. *)
Definition DataFrame : Type := list RowData.

Definition column (field : RowData -> Q) (df : DataFrame) : list Q :=
  map field df.

(** [forces = list(zip(df["Position"], df["Force"]))] *)
Definition forces_of (df : DataFrame) : list Load :=
  Py.zip (column Position df) (column Force df).

Module Tabular.

(** A cell of a row: bold text, or a value of the data frame. *)
Inductive cell : Type :=
| Bold (s : string)
| Value (v : Q).

(** What a tabular environment holds, in order. *)
Inductive item : Type :=
| HLine
| Row (cells : list cell).

Record t : Type := mk { table_spec : string; width : nat; data : list item }.

Definition COLUMN_LETTERS : list Ascii.ascii :=
  list_ascii_of_string "lcrpmbX".

Definition is_column_letter (c : Ascii.ascii) : bool :=
  existsb (Ascii.eqb c) COLUMN_LETTERS.

(** Number of columns a specification such as ["|c|c|"] declares. *)
Definition table_width (spec : string) : nat :=
  List.length (filter is_column_letter (list_ascii_of_string spec)).

Definition create (spec : string) : t :=
  {| table_spec := spec; width := table_width spec; data := [] |}.

Definition add_hline (tb : t) : t :=
  {| table_spec := table_spec tb; width := width tb;
     data := data tb ++ [HLine] |}.

(** [add_row] refuses a row whose number of cells is not the width. *)
Definition add_row (tb : t) (cells : list cell) : result t :=
  if Nat.eqb (List.length cells) (width tb)
  then Ok {| table_spec := table_spec tb; width := width tb;
             data := data tb ++ [Row cells] |}
  else Raise TableRowSizeError.

End Tabular.

Import Tabular.

(** The loop [for index, row in df.iterrows()] of the force table: one row
    of two cells, then a rule, per row of the data frame. *)
Fixpoint add_data_rows (table : Tabular.t) (df : DataFrame)
  : result Tabular.t :=
  match df with
  | [] => Ok table
  | row :: df' =>
      table <- add_row table [Value (Position row); Value (Force row)] ;;
      add_data_rows (add_hline table) df'
  end.

(** The tabular of the section "Input Data: Force Table". *)
Definition force_table (df : DataFrame) : result Tabular.t :=
  let table := Tabular.create "|c|c|" in
  let table := add_hline table in
  table <- add_row table [Bold "Position (m)"; Bold "Force (kN)"] ;;
  let table := add_hline table in
  add_data_rows table df.

(** The (position, magnitude) pairs a table block shows: its rows of two
    values, in order of appearance. *)
Fixpoint table_pairs (items : list Tabular.item) : list Load :=
  match items with
  | [] => []
  | Row [Value p; Value f] :: items' => (p, f) :: table_pairs items'
  | _ :: items' => table_pairs items'
  end.

(** ** Vocabulary of the statements *)

(** Every load position lies on the span [[0, length]]. *)
Definition in_span (length : Q) (forces : list Load) : Prop :=
  Forall (fun f : Load => 0 <= fst f /\ fst f <= length) forces.

(** Sum of the load magnitudes. *)
Definition total_load (forces : list Load) : Q :=
  Py.sum (map snd forces).

(** Sum of the moments [P * (xi - a)] of the loads about position [xi]. *)
Definition moment_about (xi : Q) (forces : list Load) : Q :=
  Py.sum (map (fun f : Load => snd f * (xi - fst f)) forces).

(** Sum of the moments of the loads about the support at [x = length]. *)
Definition far_moment (length : Q) (forces : list Load) : Q :=
  moment_about length forces.

(** The loads the inner loop subtracts at position [xi]. *)
Definition loads_upto (xi : Q) (forces : list Load) : list Load :=
  filter (fun f : Load => Qle_bool (fst f) xi) forces.

(** Equality of sequences of numbers, entry by entry. *)
Definition Qeq_list : list Q -> list Q -> Prop := Forall2 Qeq.

(** Equality of two outcomes of [compute_sfd_bmd], number by number. *)
Definition same_outcome
  (r r' : result (list Q * list Q * list Q * Q * Q)) : Prop :=
  match r, r' with
  | Ok (x, shear, moment, R1, R2), Ok (x', shear', moment', R1', R2') =>
      Qeq_list x x' /\ Qeq_list shear shear' /\ Qeq_list moment moment'
      /\ R1 == R1' /\ R2 == R2'
  | Raise e, Raise e' => e = e'
  | _, _ => False
  end.

(** The two reactions, as the formulas of the routine give them when no
    division raises. *)
Definition reaction_R1 (length : Q) (forces : list Load) : Q :=
  Py.sum (map (fun '(a, P) => P * (length - a) / length) forces).

Definition reaction_R2 (length : Q) (forces : list Load) : Q :=
  Py.sum (map (fun '(a, P) => P * a / length) forces).

(** ** The rest of the script: span and plotted coordinates *)

(** [Series.max()]: the largest value of a column.  A column without rows
    has none (pandas answers NaN, which is not a number of this model). *)
Definition series_max (s : list Q) : option Q :=
  match s with
  | [] => None
  | v :: s' =>
      Some (fold_left (fun m w => if Qle_bool m w then w else m) s' v)
  end.

(** Rounding to the nearest integer, a tie going to the even neighbour. *)
Definition round_half_even (q : Q) : Z :=
  let f := Qfloor q in
  match Qcompare (q - inject_Z f) (1 # 2) with
  | Lt => f
  | Gt => (f + 1)%Z
  | Eq => if Z.even f then f else (f + 1)%Z
  end.

(** The builtin [round(x, ndigits)]: the closest multiple of
    [10 ** -ndigits], ties going to the even choice. *)
Definition round (x : Q) (ndigits : nat) : Q :=
  let scale := Qpower 10 (Z.of_nat ndigits) in
  inject_Z (round_half_even (x * scale)) / scale.

(** A list comprehension whose body may fail with an IndexError, here
    [None]. *)
Fixpoint index_comp {A B} (body : A -> option B) (l : list A)
  : option (list B) :=
  match l with
  | [] => Some []
  | v :: l' =>
      match body v, index_comp body l' with
      | Some b, Some bs => Some (b :: bs)
      | _, _ => None
      end
  end.

(** The numbers of [[f"({round(x[i],3)},{round(ys[i],3)})" for i in
    range(len(x))]]: one rounded pair per index of [x]; [ys[i]] past the
    end of [ys] is an IndexError. *)
Definition rounded_coords (x ys : list Q) : option (list (Q * Q)) :=
  index_comp
    (fun i =>
       match nth_error x i, nth_error ys i with
       | Some xi, Some yi => Some (round xi 3, round yi 3)
       | _, _ => None
       end)
    (seq 0 (List.length x)).

(** ** Further vocabulary *)

(** All loads act downwards (magnitudes are not negative). *)
Definition downward (forces : list Load) : Prop :=
  Forall (fun f : Load => 0 <= snd f) forces.

(** The loads located in the half-open interval [(lo, hi]]. *)
Definition loads_between (lo hi : Q) (forces : list Load) : list Load :=
  filter
    (fun f : Load => negb (Qle_bool (fst f) lo) && Qle_bool (fst f) hi)
    forces.

(** The same loads on the beam seen from its other end. *)
Definition mirror (length : Q) (forces : list Load) : list Load :=
  map (fun f : Load => (length - fst f, snd f)) forces.

(** All magnitudes multiplied by [c]. *)
Definition scale_loads (c : Q) (forces : list Load) : list Load :=
  map (fun f : Load => (fst f, c * snd f)) forces.

(** What one load contributes to the shear and to the moment at [xi]: its
    share of R1, less the load itself once [xi] has reached it. *)
Definition shear_term (length xi : Q) (f : Load) : Q :=
  snd f * (length - fst f) / length
  - (if Qle_bool (fst f) xi then snd f else 0).

Definition moment_term (length xi : Q) (f : Load) : Q :=
  snd f * (length - fst f) / length * xi
  - (if Qle_bool (fst f) xi then snd f * (xi - fst f) else 0).

(** ** The routine as the script calls it: NumPy scalars

    The definitions above are the routine on Python floats.  The script
    calls it differently: the span [df["Position"].max()] is a NumPy scalar
    of the dtype of the column ([int64] or [float64]), while iterating a
    column hands out Python scalars.  Arithmetic between the two follows
    NumPy: an [int64] scalar with a Python int stays [int64] and wraps
    around on overflow, everything else is [float64]; true division never
    raises, a zero divisor gives [nan] or an infinity.  Rounding is still
    not modelled, nor are the run-time warnings NumPy prints. *)

Module Scalar.

(** A Python scalar of the table. *)
Inductive pynum : Type :=
| PyInt (z : Z)
| PyFloat (q : Q).

(** A NumPy scalar: the span, and what is computed from it. *)
Inductive npnum : Type :=
| NpInt64 (z : Z)
| NpFloat64 (q : Q).

(** A [float64] result, which may be an infinity or [nan]. *)
Inductive float64 : Type :=
| Finite (q : Q)
| Inf (negative : bool)
| NaN.

(** What NumPy does with a Python int that does not fit [int64] depends on
    its version (NumPy 2 raises, NumPy 1 promotes), and a table read into
    [int64] columns never holds one: such cases are left out. *)
Inductive outcome (A : Type) : Type :=
| Returned (a : A)
| OutOfModel.
Arguments Returned {A} a.
Arguments OutOfModel {A}.

Definition py_val (v : pynum) : Q :=
  match v with
  | PyInt z => inject_Z z
  | PyFloat q => q
  end.

Definition np_val (v : npnum) : Q :=
  match v with
  | NpInt64 z => inject_Z z
  | NpFloat64 q => q
  end.

Definition fits64 (z : Z) : bool :=
  ((- 2 ^ 63 <=? z) && (z <? 2 ^ 63))%Z.

(** Two's-complement wrap-around into [int64]. *)
Definition wrap64 (z : Z) : Z := ((z + 2 ^ 63) mod 2 ^ 64 - 2 ^ 63)%Z.

(** [x - y] for a NumPy scalar [x] and a Python scalar [y]. *)
Definition np_sub (x : npnum) (y : pynum) : npnum :=
  match x, y with
  | NpInt64 n, PyInt z => NpInt64 (wrap64 (n - z))
  | _, _ => NpFloat64 (np_val x - py_val y)
  end.

(** [y * x] for a Python scalar [y] and a NumPy scalar [x]. *)
Definition np_rmul (y : pynum) (x : npnum) : npnum :=
  match y, x with
  | PyInt z, NpInt64 n => NpInt64 (wrap64 (z * n))
  | _, _ => NpFloat64 (py_val y * np_val x)
  end.

(** [x * y] for two Python scalars: ints multiply exactly. *)
Definition py_mul (x y : pynum) : pynum :=
  match x, y with
  | PyInt a, PyInt b => PyInt (a * b)
  | _, _ => PyFloat (py_val x * py_val y)
  end.

(** NumPy's true division of two finite numbers: a zero divisor gives
    [nan] for a zero numerator and an infinity of the numerator's sign
    otherwise (zero carries no sign here). *)
Definition true_divide (n d : Q) : float64 :=
  if Qeq_bool d 0
  then match Qcompare n 0 with
       | Eq => NaN
       | Lt => Inf true
       | Gt => Inf false
       end
  else Finite (n / d).

(** [n / d] for two NumPy scalars. *)
Definition np_truediv (n d : npnum) : float64 :=
  true_divide (np_val n) (np_val d).

(** [n / d] for a Python scalar [n] and a NumPy scalar [d]. *)
Definition np_rtruediv (n : pynum) (d : npnum) : outcome float64 :=
  match n, d with
  | PyInt z, NpInt64 _ =>
      if fits64 z then Returned (true_divide (inject_Z z) (np_val d))
      else OutOfModel
  | _, _ => Returned (true_divide (py_val n) (np_val d))
  end.

Definition f_opp (x : float64) : float64 :=
  match x with
  | Finite q => Finite (- q)
  | Inf s => Inf (negb s)
  | NaN => NaN
  end.

Definition f_add (x y : float64) : float64 :=
  match x, y with
  | Finite a, Finite b => Finite (a + b)
  | Finite _, Inf s => Inf s
  | Inf s, Finite _ => Inf s
  | Inf s, Inf s' => if Bool.eqb s s' then Inf s else NaN
  | _, _ => NaN
  end.

Definition f_sub (x y : float64) : float64 :=
  match x, y with
  | Finite a, Finite b => Finite (a - b)
  | _, _ => f_add x (f_opp y)
  end.

Definition f_mul (x y : float64) : float64 :=
  match x, y with
  | Finite a, Finite b => Finite (a * b)
  | Finite a, Inf s | Inf s, Finite a =>
      match Qcompare a 0 with
      | Eq => NaN
      | Lt => Inf (negb s)
      | Gt => Inf s
      end
  | Inf s, Inf s' => Inf (xorb s s')
  | _, _ => NaN
  end.

Definition is_finite (x : float64) : bool :=
  match x with
  | Finite _ => true
  | _ => false
  end.

(** The builtin [sum] over [float64] terms. *)
Definition f_sum (l : list float64) : float64 :=
  fold_left f_add l (Finite 0).

(** A list comprehension whose body may leave the model. *)
Fixpoint outcome_comp {A B} (body : A -> outcome B) (l : list A)
  : outcome (list B) :=
  match l with
  | [] => Returned []
  | v :: l' =>
      match body v, outcome_comp body l' with
      | Returned b, Returned bs => Returned (b :: bs)
      | _, _ => OutOfModel
      end
  end.

End Scalar.

Import Scalar.

(** A load as the script hands it over: two Python scalars. *)
Definition PyLoad : Type := (pynum * pynum)%type.

(** The same load as numbers. *)
Definition load_val (f : PyLoad) : Load := (py_val (fst f), py_val (snd f)).

(** The span and every integer of the load list fit [int64], as the
    entries of an [int64] column do. *)
Definition py_ok (v : pynum) : bool :=
  match v with
  | PyInt z => fits64 z
  | PyFloat _ => true
  end.

Definition scalars_ok (length : npnum) (forces : list PyLoad) : bool :=
  match length with
  | NpInt64 n => fits64 n
  | NpFloat64 _ => true
  end
  && forallb (fun f : PyLoad => py_ok (fst f) && py_ok (snd f)) forces.

(** The inner loop on [float64] values: [xi] is a finite [float64] of the
    grid, [a] and [P] are Python scalars. *)
Definition apply_load_np (xi : Q) (VM : float64 * float64) (f : PyLoad)
  : float64 * float64 :=
  let '(V, M) := VM in
  let '(a, P) := f in
  if Qle_bool (py_val a) xi
  then (f_sub V (Finite (py_val P)),
        f_sub M (Finite (py_val P * (xi - py_val a))))
  else (V, M).

Definition sample_at_np (R1 : float64) (forces : list PyLoad) (xi : Q)
  : float64 * float64 :=
  fold_left (apply_load_np xi) forces (R1, f_mul R1 (Finite xi)).

Definition sample_loop_np (R1 : float64) (forces : list PyLoad) (x : list Q)
  : list float64 * list float64 :=
  fold_left
    (fun (acc : list float64 * list float64) xi =>
       let '(shear, moment) := acc in
       let '(V, M) := sample_at_np R1 forces xi in
       (shear ++ [V], moment ++ [M]))
    x ([], []).

(** [compute_sfd_bmd(length, forces)] for a NumPy scalar [length] and
    Python scalars in [forces]. *)
Definition compute_sfd_bmd_np (length : npnum) (forces : list PyLoad)
  : outcome (list Q * list float64 * list float64 * float64 * float64) :=
  if negb (scalars_ok length forces) then OutOfModel else
  let x := Np.linspace 0 (np_val length) N_SAMPLES in
  let R1 :=
    f_sum (map (fun '(a, P) =>
                  np_truediv (np_rmul P (np_sub length a)) length)
             forces) in
  match outcome_comp (fun '(a, P) => np_rtruediv (py_mul P a) length) forces
  with
  | OutOfModel => OutOfModel
  | Returned t2 =>
      let R2 := f_sum t2 in
      let '(shear, moment) := sample_loop_np R1 forces x in
      Returned (x, shear, moment, R1, R2)
  end.

(** A column of the data frame with its dtype. *)
Inductive Column : Type :=
| IntColumn (l : list Z)
| FloatColumn (l : list Q).

(** Iterating a column yields Python scalars. *)
Definition items (c : Column) : list pynum :=
  match c with
  | IntColumn l => map PyInt l
  | FloatColumn l => map PyFloat l
  end.

(** [max()] of a column: a NumPy scalar of its dtype; none for a column
    without rows. *)
Definition column_max (c : Column) : option npnum :=
  match c with
  | IntColumn [] => None
  | IntColumn (z :: l) => Some (NpInt64 (fold_left Z.max l z))
  | FloatColumn l => option_map NpFloat64 (series_max l)
  end.

(** The data frame with the dtypes of its two columns. *)
Record Frame : Type := mkFrame { position : Column; force : Column }.

(** [forces = list(zip(df["Position"], df["Force"]))] and
    [BEAM_LENGTH = df["Position"].max()] on such a frame. *)
Definition forces_np (df : Frame) : list PyLoad :=
  Py.zip (items (position df)) (items (force df)).

Definition BEAM_LENGTH_np (df : Frame) : option npnum :=
  column_max (position df).

(** No integer operation of the reaction formulas leaves [int64] for the
    load [(a, P)]: neither [length - a], nor [P * (length - a)], nor the
    Python product [P * a] handed to NumPy. *)
Definition no_overflow_at (length : npnum) (f : PyLoad) : bool :=
  match length, fst f, snd f with
  | NpInt64 n, PyInt a, PyInt P =>
      fits64 (n - a) && fits64 (P * (n - a)) && fits64 (P * a)
  | NpInt64 n, PyInt a, PyFloat _ => fits64 (n - a)
  | _, _, _ => true
  end.

Definition no_overflow (length : npnum) (forces : list PyLoad) : bool :=
  forallb (no_overflow_at length) forces.

(** * Properties *)

(** ** The builtin [sum] *)

Section PySum.

Lemma fold_Qplus_acc (l : list Q) (acc : Q) :
  fold_left Qplus l acc == acc + Py.sum l.
Proof.
  unfold Py.sum. revert acc.
  induction l as [|q l IH]; intros acc; simpl.
  - ring.
  - rewrite (IH (acc + q)), (IH (0 + q)). ring.
Qed.

Lemma sum_nil : Py.sum [] = 0.
Proof. reflexivity. Qed.

Lemma sum_cons (q : Q) (l : list Q) : Py.sum (q :: l) == q + Py.sum l.
Proof.
  unfold Py.sum at 1. simpl. rewrite fold_Qplus_acc. ring.
Qed.

Lemma sum_map_pointwise {A} (f g : A -> Q) (l : list A) :
  (forall v, In v l -> f v == g v) ->
  Py.sum (map f l) == Py.sum (map g l).
Proof.
  induction l as [|v l IH]; intros Hfg; simpl.
  - reflexivity.
  - rewrite !sum_cons, IH, (Hfg v).
    + reflexivity.
    + now left.
    + intros w Hw. apply Hfg. now right.
Qed.

Lemma sum_map_plus {A} (f g : A -> Q) (l : list A) :
  Py.sum (map (fun v => f v + g v) l) == Py.sum (map f l) + Py.sum (map g l).
Proof.
  induction l as [|v l IH]; simpl.
  - rewrite !sum_nil. ring.
  - rewrite !sum_cons, IH. ring.
Qed.

Lemma sum_map_scale {A} (f : A -> Q) (c : Q) (l : list A) :
  Py.sum (map (fun v => f v * c) l) == Py.sum (map f l) * c.
Proof.
  induction l as [|v l IH]; simpl.
  - rewrite !sum_nil. ring.
  - rewrite !sum_cons, IH. ring.
Qed.

Lemma sum_Permutation (l l' : list Q) :
  Permutation l l' -> Py.sum l == Py.sum l'.
Proof.
  induction 1 as [|q l l' _ IH|p q l|l l' l'' _ IH1 _ IH2].
  - reflexivity.
  - now rewrite !sum_cons, IH.
  - rewrite !sum_cons. ring.
  - now rewrite IH1.
Qed.

Lemma sum_Qeq_list (l l' : list Q) :
  Qeq_list l l' -> Py.sum l == Py.sum l'.
Proof.
  induction 1 as [|q q' l l' Hq _ IH].
  - reflexivity.
  - now rewrite !sum_cons, IH, Hq.
Qed.

End PySum.

(** ** List comprehensions and division *)

Lemma list_comp_total {A B} (body : A -> result B) (g : A -> B) (l : list A) :
  (forall v, body v = Ok (g v)) -> list_comp body l = Ok (map g l).
Proof.
  intros Hbody. induction l as [|v l IH]; simpl.
  - reflexivity.
  - now rewrite Hbody, IH.
Qed.

Lemma truediv_nonzero (x y : Q) : ~ y == 0 -> truediv x y = Ok (x / y).
Proof.
  intros Hy. unfold truediv.
  destruct (Qeq_bool y 0) eqn:E; [|reflexivity].
  apply Qeq_bool_iff in E. contradiction.
Qed.


(** ** The sampling loops *)

Lemma sample_loop_acc R1 forces x shear moment :
  fold_left
    (fun (acc : list Q * list Q) xi =>
       let '(shear, moment) := acc in
       let '(V, M) := sample_at R1 forces xi in
       (shear ++ [V], moment ++ [M]))
    x (shear, moment)
  = (shear ++ map (shear_at R1 forces) x,
     moment ++ map (moment_at R1 forces) x).
Proof.
  revert shear moment.
  induction x as [|xi x IH]; intros shear moment; simpl.
  - now rewrite !app_nil_r.
  - unfold shear_at, moment_at.
    destruct (sample_at R1 forces xi) as [V M] eqn:E.
    rewrite IH, <- !app_assoc. reflexivity.
Qed.

Lemma sample_loop_map R1 forces x :
  sample_loop R1 forces x
  = (map (shear_at R1 forces) x, map (moment_at R1 forces) x).
Proof. unfold sample_loop. now rewrite sample_loop_acc. Qed.

(** When the span is not zero no division raises, and the routine returns
    the sample grid, the two loop bodies mapped over it, and the two
    reaction sums. *)
Lemma compute_sfd_bmd_nonzero (length : Q) (forces : list Load) :
  ~ length == 0 ->
  compute_sfd_bmd length forces
  = let x := Np.linspace 0 length N_SAMPLES in
    let R1 := reaction_R1 length forces in
    Ok (x, map (shear_at R1 forces) x, map (moment_at R1 forces) x,
        R1, reaction_R2 length forces).
Proof.
  intros Hlen. unfold compute_sfd_bmd.
  rewrite (list_comp_total _ (fun '(a, P) => P * (length - a) / length)).
  2:{ intros [a P]. now apply truediv_nonzero. }
  cbn [bind].
  rewrite (list_comp_total _ (fun '(a, P) => P * a / length)).
  2:{ intros [a P]. now apply truediv_nonzero. }
  cbn [bind]. rewrite sample_loop_map. reflexivity.
Qed.

(** ** Reactions *)

Lemma reactions_balance (length : Q) (forces : list Load) :
  ~ length == 0 ->
  reaction_R1 length forces + reaction_R2 length forces == total_load forces.
Proof.
  intros Hlen. unfold reaction_R1, reaction_R2, total_load.
  rewrite <- sum_map_plus.
  apply sum_map_pointwise. intros [a P] _. simpl. now field.
Qed.

Lemma reaction_R1_moment (length : Q) (forces : list Load) :
  ~ length == 0 ->
  reaction_R1 length forces * length == far_moment length forces.
Proof.
  intros Hlen. unfold reaction_R1, far_moment, moment_about.
  rewrite <- sum_map_scale.
  apply sum_map_pointwise. intros [a P] _. simpl. now field.
Qed.

(** ** The inner loop in closed form *)

Lemma fold_apply_load (xi : Q) (forces : list Load) (V M : Q) :
  fst (fold_left (apply_load xi) forces (V, M))
    == V - total_load (loads_upto xi forces)
  /\ snd (fold_left (apply_load xi) forces (V, M))
    == M - moment_about xi (loads_upto xi forces).
Proof.
  revert V M.
  induction forces as [|[a P] forces IH]; intros V M.
  - unfold total_load, moment_about. simpl. rewrite sum_nil. split; ring.
  - unfold total_load, moment_about, loads_upto in *.
    cbn [fold_left apply_load filter fst snd].
    destruct (Qle_bool a xi).
    + destruct (IH (V - P) (M - P * (xi - a))) as [HV HM].
      rewrite HV, HM. cbn [map fst snd]. rewrite !sum_cons. split; ring.
    + apply IH.
Qed.

Lemma shear_at_closed (R1 : Q) (forces : list Load) (xi : Q) :
  shear_at R1 forces xi == R1 - total_load (loads_upto xi forces).
Proof. apply fold_apply_load. Qed.

Lemma moment_at_closed (R1 : Q) (forces : list Load) (xi : Q) :
  moment_at R1 forces xi == R1 * xi - moment_about xi (loads_upto xi forces).
Proof. apply fold_apply_load. Qed.

Lemma loads_upto_all (xi : Q) (forces : list Load) :
  Forall (fun f : Load => fst f <= xi) forces ->
  loads_upto xi forces = forces.
Proof.
  induction 1 as [|f forces Hf _ IH]; simpl.
  - reflexivity.
  - apply Qle_bool_iff in Hf. now rewrite Hf, IH.
Qed.

(** ** The sample grid *)

Section Linspace.

Variables start stop : Q.
Variable n : nat.

Lemma of_nat_S (i : nat) : Np.of_nat (S i) == Np.of_nat i + 1.
Proof.
  unfold Np.of_nat. rewrite Nat2Z.inj_succ, <- Z.add_1_r, inject_Z_plus.
  reflexivity.
Qed.

Lemma of_nat_lt (i j : nat) : (i < j)%nat -> Np.of_nat i < Np.of_nat j.
Proof. intros Hij. unfold Np.of_nat. rewrite <- Zlt_Qlt. lia. Qed.

Lemma of_nat_pos (i : nat) : 0 < Np.of_nat (S i).
Proof. apply (of_nat_lt 0 (S i)). lia. Qed.

Lemma set_last_snoc (y : list Q) (v w : Q) :
  Np.set_last (y ++ [v]) w = y ++ [w].
Proof.
  unfold Np.set_last.
  destruct (y ++ [v]) eqn:E.
  - now destruct y.
  - now rewrite <- E, removelast_last.
Qed.

Lemma linspace_snoc :
  Np.linspace start stop (S (S n))
  = map (fun i => i * ((stop - start) / Np.of_nat (S n)) + start) (Np.arange (S n)) ++ [stop].
Proof.
  unfold Np.linspace, Np.arange.
  replace (S (S n) - 1)%nat with (S n) by lia.
  change (Nat.ltb 0 (S n)) with true.
  change (Nat.ltb 1 (S (S n))) with true. cbv iota.
  rewrite (seq_S (S n) 0), !map_app. cbn [map app].
  apply set_last_snoc.
Qed.

Lemma linspace_length :
  List.length (Np.linspace start stop (S (S n))) = S (S n).
Proof.
  rewrite linspace_snoc. unfold Np.arange.
  rewrite length_app, !length_map, length_seq. simpl. lia.
Qed.

Lemma linspace_nth_inner (i : nat) :
  (i < S n)%nat ->
  nth_error (Np.linspace start stop (S (S n))) i
  = Some (Np.of_nat i * ((stop - start) / Np.of_nat (S n)) + start).
Proof.
  intros Hi. rewrite linspace_snoc. unfold Np.arange.
  rewrite nth_error_app1 by (rewrite !length_map, length_seq; exact Hi).
  rewrite !nth_error_map, nth_error_seq.
  apply Nat.ltb_lt in Hi. rewrite Hi. reflexivity.
Qed.

Lemma linspace_nth_last :
  nth_error (Np.linspace start stop (S (S n))) (S n) = Some stop.
Proof.
  rewrite linspace_snoc. unfold Np.arange.
  rewrite nth_error_app2 by (rewrite !length_map, length_seq; lia).
  rewrite !length_map, length_seq, Nat.sub_diag. reflexivity.
Qed.

Lemma linspace_last (d : Q) :
  last (Np.linspace start stop (S (S n))) d = stop.
Proof. rewrite linspace_snoc. apply last_last. Qed.

(** Every entry is its index times the step, up to [==]. *)
Lemma linspace_nth (i : nat) (q : Q) :
  nth_error (Np.linspace start stop (S (S n))) i = Some q ->
  (i < S (S n))%nat /\ q == Np.of_nat i * ((stop - start) / Np.of_nat (S n)) + start.
Proof.
  intros Hq.
  assert (Hi : (i < S (S n))%nat).
  { rewrite <- linspace_length. apply nth_error_Some. congruence. }
  split; [exact Hi|].
  destruct (Nat.eq_dec i (S n)) as [->|Hne].
  - rewrite linspace_nth_last in Hq. injection Hq as <-.
    field. pose proof (of_nat_pos n). lra.
  - rewrite linspace_nth_inner in Hq by lia. injection Hq as <-.
    reflexivity.
Qed.

End Linspace.

(** * The statics evaluator: equilibrium *)

(** A positive span is not zero. *)
Lemma positive_span_nonzero (length : Q) : 0 < length -> ~ length == 0.
Proof. intros Hpos Hz. lra. Qed.

(** The formulas in exact arithmetic: for every length > 0 and every list
    of loads whose positions lie in [0, length], the routine returns, and
    the reactions it returns satisfy R1 + R2 = sum of the load magnitudes
    (vertical equilibrium). *)
Theorem vertical_equilibrium (length : Q) (forces : list Load) :
  0 < length ->
  in_span length forces ->
  exists x shear moment R1 R2,
    compute_sfd_bmd length forces = Ok (x, shear, moment, R1, R2)
    /\ R1 + R2 == total_load forces.
Proof.
  intros Hpos _. apply positive_span_nonzero in Hpos.
  rewrite (compute_sfd_bmd_nonzero _ _ Hpos). cbv zeta.
  do 5 eexists. split; [reflexivity|].
  now apply reactions_balance.
Qed.

Lemma vertical_equilibrium_witness :
  0 < 6 /\ in_span 6 [(2, 6); (4, 6)]
  /\ exists x shear moment R1 R2,
       compute_sfd_bmd 6 [(2, 6); (4, 6)] = Ok (x, shear, moment, R1, R2)
       /\ R1 + R2 == total_load [(2, 6); (4, 6)].
Proof.
  assert (Hpos : 0 < 6) by reflexivity.
  assert (Hspan : in_span 6 [(2, 6); (4, 6)])
    by (repeat constructor; simpl; lra).
  split; [exact Hpos|]. split; [exact Hspan|].
  exact (vertical_equilibrium 6 [(2, 6); (4, 6)] Hpos Hspan).
Defined.

(** The formulas in exact arithmetic: for every length > 0 and every list
    of loads whose positions lie in [0, length], the reaction R1 the routine
    returns satisfies R1 * length = sum over the loads of P * (length - a)
    (moment equilibrium about the support at x = length). *)
Theorem moment_equilibrium (length : Q) (forces : list Load) :
  0 < length ->
  in_span length forces ->
  exists x shear moment R1 R2,
    compute_sfd_bmd length forces = Ok (x, shear, moment, R1, R2)
    /\ R1 * length == far_moment length forces.
Proof.
  intros Hpos _. apply positive_span_nonzero in Hpos.
  rewrite (compute_sfd_bmd_nonzero _ _ Hpos). cbv zeta.
  do 5 eexists. split; [reflexivity|].
  now apply reaction_R1_moment.
Qed.

Lemma moment_equilibrium_witness :
  0 < 6 /\ in_span 6 [(2, 6); (4, 6)]
  /\ exists x shear moment R1 R2,
       compute_sfd_bmd 6 [(2, 6); (4, 6)] = Ok (x, shear, moment, R1, R2)
       /\ R1 * 6 == far_moment 6 [(2, 6); (4, 6)].
Proof.
  assert (Hpos : 0 < 6) by reflexivity.
  assert (Hspan : in_span 6 [(2, 6); (4, 6)])
    by (repeat constructor; simpl; lra).
  split; [exact Hpos|]. split; [exact Hspan|].
  exact (moment_equilibrium 6 [(2, 6); (4, 6)] Hpos Hspan).
Defined.

(** Positions on the span are all at or before its far end. *)
Lemma in_span_upto_end (length : Q) (forces : list Load) :
  in_span length forces ->
  Forall (fun f : Load => fst f <= length) forces.
Proof. apply Forall_impl. now intros f [_ H]. Qed.

(** The last of the [N_SAMPLES] positions is the far end of the span. *)
Lemma last_position (length : Q) :
  nth_error (Np.linspace 0 length N_SAMPLES) 399 = Some length.
Proof. exact (linspace_nth_last 0 length 398). Qed.

(** C10.  For every length > 0 and every load list with all positions in
    [0, length], at the final sample position x = length the shear equals
    -R2 and the moment equals 0, for any number of loads. *)
Theorem far_support_closure (length : Q) (forces : list Load) :
  0 < length ->
  in_span length forces ->
  exists x shear moment R1 R2,
    compute_sfd_bmd length forces = Ok (x, shear, moment, R1, R2)
    /\ nth_error x 399 = Some length
    /\ last x 0 = length
    /\ (exists V, nth_error shear 399 = Some V /\ V == - R2)
    /\ (exists M, nth_error moment 399 = Some M /\ M == 0).
Proof.
  intros Hpos Hspan. apply positive_span_nonzero in Hpos.
  rewrite (compute_sfd_bmd_nonzero _ _ Hpos). cbv zeta.
  do 5 eexists. split; [reflexivity|].
  pose proof (loads_upto_all _ _ (in_span_upto_end _ _ Hspan)) as Hall.
  split; [apply last_position|].
  split; [exact (linspace_last 0 length 398 0)|].
  split; eexists; (split; [rewrite nth_error_map, last_position; reflexivity|]).
  - rewrite shear_at_closed, Hall, <- (reactions_balance length forces Hpos).
    ring.
  - rewrite moment_at_closed, Hall.
    rewrite (reaction_R1_moment length forces Hpos). unfold far_moment. ring.
Qed.

Lemma far_support_closure_witness :
  0 < 6 /\ in_span 6 [(2, 6); (4, 6)]
  /\ exists x shear moment R1 R2,
       compute_sfd_bmd 6 [(2, 6); (4, 6)] = Ok (x, shear, moment, R1, R2)
       /\ nth_error x 399 = Some 6
       /\ last x 0 = 6
       /\ (exists V, nth_error shear 399 = Some V /\ V == - R2)
       /\ (exists M, nth_error moment 399 = Some M /\ M == 0).
Proof.
  assert (Hpos : 0 < 6) by reflexivity.
  assert (Hspan : in_span 6 [(2, 6); (4, 6)])
    by (repeat constructor; simpl; lra).
  split; [exact Hpos|]. split; [exact Hspan|].
  exact (far_support_closure 6 [(2, 6); (4, 6)] Hpos Hspan).
Defined.

(** * The statics evaluator: sampled series *)

(** The returned value sequences follow the position sequence: entry [i] of
    each is the loop body evaluated at entry [i] of the positions. *)
Lemma nth_error_samples (f : Q -> Q) (x : list Q) (i : nat) (xi : Q) :
  nth_error x i = Some xi -> nth_error (map f x) i = Some (f xi).
Proof. intros Hxi. now rewrite nth_error_map, Hxi. Qed.

(** With one load the inner loop runs once. *)
Lemma shear_at_single (R1 a P xi : Q) :
  shear_at R1 [(a, P)] xi = if Qle_bool a xi then R1 - P else R1.
Proof.
  unfold shear_at, sample_at. simpl. now destruct (Qle_bool a xi).
Qed.

Lemma Qle_bool_false (a xi : Q) : xi < a -> Qle_bool a xi = false.
Proof.
  intros Hlt. destruct (Qle_bool a xi) eqn:E; [|reflexivity].
  apply Qle_bool_iff in E. lra.
Qed.

(** C3.  For every length > 0 and a single load (a, P) with
    0 <= a <= length, every sampled shear value equals R1 where the sample
    position is x < a and R1 - P where x >= a; the load enters the
    summation exactly when x >= a, ties included. *)
Theorem single_load_shear_step (length a P : Q) :
  0 < length ->
  0 <= a /\ a <= length ->
  exists x shear moment R1 R2,
    compute_sfd_bmd length [(a, P)] = Ok (x, shear, moment, R1, R2)
    /\ List.length shear = List.length x
    /\ forall i xi,
         nth_error x i = Some xi ->
         exists V,
           nth_error shear i = Some V
           /\ (xi < a -> V == R1)
           /\ (xi >= a -> V == R1 - P)
           /\ (In (a, P) (loads_upto xi [(a, P)]) <-> xi >= a).
Proof.
  intros Hpos _. apply positive_span_nonzero in Hpos.
  rewrite (compute_sfd_bmd_nonzero _ _ Hpos). cbv zeta.
  do 5 eexists. split; [reflexivity|].
  split; [apply length_map|].
  intros i xi Hxi. eexists.
  split; [apply nth_error_samples, Hxi|].
  rewrite shear_at_single.
  split; [|split].
  - intros Hlt. now rewrite (Qle_bool_false _ _ Hlt).
  - intros Hge. apply Qle_bool_iff in Hge. now rewrite Hge.
  - unfold loads_upto. rewrite filter_In. cbn [fst].
    rewrite Qle_bool_iff. split.
    + now intros [_ Hge].
    + intros Hge. split; [now left|exact Hge].
Qed.

Lemma single_load_shear_step_witness :
  0 < 10 /\ (0 <= 5 /\ 5 <= 10)
  /\ exists x shear moment R1 R2,
       compute_sfd_bmd 10 [(5, 10)] = Ok (x, shear, moment, R1, R2)
       /\ List.length shear = List.length x
       /\ forall i xi,
            nth_error x i = Some xi ->
            exists V,
              nth_error shear i = Some V
              /\ (xi < 5 -> V == R1)
              /\ (xi >= 5 -> V == R1 - 10)
              /\ (In (5, 10) (loads_upto xi [(5, 10)]) <-> xi >= 5).
Proof.
  assert (Hpos : 0 < 10) by reflexivity.
  assert (Hpos' : 0 <= 5 /\ 5 <= 10) by (split; discriminate).
  split; [exact Hpos|]. split; [exact Hpos'|].
  exact (single_load_shear_step 10 5 10 Hpos Hpos').
Defined.

(** C4.  For every length > 0, the routine applied to the empty load list
    returns R1 = 0, R2 = 0, and shear and moment sequences that are zero at
    every sampled position. *)
Theorem no_loads_all_zero (length : Q) :
  0 < length ->
  exists x shear moment R1 R2,
    compute_sfd_bmd length [] = Ok (x, shear, moment, R1, R2)
    /\ R1 == 0 /\ R2 == 0
    /\ List.length shear = List.length x
    /\ List.length moment = List.length x
    /\ Forall (fun V => V == 0) shear
    /\ Forall (fun M => M == 0) moment.
Proof.
  intros _. unfold compute_sfd_bmd. cbn [list_comp bind].
  rewrite sample_loop_map.
  do 5 eexists. split; [reflexivity|].
  split; [reflexivity|]. split; [reflexivity|].
  split; [apply length_map|]. split; [apply length_map|].
  split; apply Forall_map, Forall_forall; intros xi _.
  - reflexivity.
  - unfold moment_at, sample_at. simpl. rewrite sum_nil. ring.
Qed.

Lemma no_loads_all_zero_witness :
  0 < 10
  /\ exists x shear moment R1 R2,
       compute_sfd_bmd 10 [] = Ok (x, shear, moment, R1, R2)
       /\ R1 == 0 /\ R2 == 0
       /\ List.length shear = List.length x
       /\ List.length moment = List.length x
       /\ Forall (fun V => V == 0) shear
       /\ Forall (fun M => M == 0) moment.
Proof.
  assert (Hpos : 0 < 10) by reflexivity.
  split; [exact Hpos|].
  exact (no_loads_all_zero 10 Hpos).
Defined.

(** Entry [i] of the grid over [[0, length]] is [i * (length / 399)]. *)
Lemma grid_nth (length : Q) (i : nat) (xi : Q) :
  nth_error (Np.linspace 0 length N_SAMPLES) i = Some xi ->
  (i < 400)%nat /\ xi == Np.of_nat i * (length / 399).
Proof.
  intros Hxi. apply (linspace_nth 0 length 398) in Hxi as [Hi Hxi].
  split; [exact Hi|]. rewrite Hxi.
  change (Np.of_nat 399) with 399. field.
Qed.

Lemma grid_first (length : Q) :
  exists x0, nth_error (Np.linspace 0 length N_SAMPLES) 0 = Some x0 /\ x0 == 0.
Proof.
  eexists. split.
  - apply (linspace_nth_inner 0 length 398 0). lia.
  - change (Np.of_nat 0) with 0. ring.
Qed.

Lemma grid_increasing (length : Q) (i j : nat) (xi xj : Q) :
  0 < length ->
  (i < j)%nat ->
  nth_error (Np.linspace 0 length N_SAMPLES) i = Some xi ->
  nth_error (Np.linspace 0 length N_SAMPLES) j = Some xj ->
  xi < xj.
Proof.
  intros Hpos Hij Hxi Hxj.
  apply grid_nth in Hxi as [_ Hxi]. apply grid_nth in Hxj as [_ Hxj].
  rewrite Hxi, Hxj.
  apply Qmult_lt_compat_r.
  - apply Qlt_shift_div_l; lra.
  - now apply of_nat_lt.
Qed.

Lemma grid_even (length : Q) (i : nat) (xi xi' : Q) :
  nth_error (Np.linspace 0 length N_SAMPLES) i = Some xi ->
  nth_error (Np.linspace 0 length N_SAMPLES) (S i) = Some xi' ->
  xi' - xi == length / 399.
Proof.
  intros Hxi Hxi'.
  apply grid_nth in Hxi as [_ Hxi]. apply grid_nth in Hxi' as [_ Hxi'].
  rewrite Hxi, Hxi', of_nat_S. field.
Qed.

(** C5.  For every length > 0 the returned position sequence has exactly
    400 entries, evenly spaced, the first 0 and the last [length], and is
    strictly increasing; the shear and moment sequences have the same
    length and the same order as the positions. *)
Theorem sample_grid (length : Q) (forces : list Load) :
  0 < length ->
  exists x shear moment R1 R2,
    compute_sfd_bmd length forces = Ok (x, shear, moment, R1, R2)
    /\ List.length x = 400%nat
    /\ (forall i xi xi',
          nth_error x i = Some xi -> nth_error x (S i) = Some xi' ->
          xi' - xi == length / 399)
    /\ (exists x0, nth_error x 0 = Some x0 /\ x0 == 0)
    /\ nth_error x 399 = Some length
    /\ (forall i j xi xj,
          (i < j)%nat ->
          nth_error x i = Some xi -> nth_error x j = Some xj ->
          xi < xj)
    /\ List.length shear = 400%nat
    /\ List.length moment = 400%nat
    /\ (forall i xi,
          nth_error x i = Some xi ->
          nth_error shear i = Some (shear_at R1 forces xi)
          /\ nth_error moment i = Some (moment_at R1 forces xi)).
Proof.
  intros Hpos. pose proof (positive_span_nonzero _ Hpos) as Hnz.
  rewrite (compute_sfd_bmd_nonzero _ _ Hnz). cbv zeta.
  do 5 eexists. split; [reflexivity|].
  pose proof (linspace_length 0 length 398) as Hlen.
  change (S (S 398)) with N_SAMPLES in Hlen.
  split; [exact Hlen|].
  split; [apply grid_even|].
  split; [apply grid_first|].
  split; [apply last_position|].
  split; [intros i j xi xj; now apply grid_increasing|].
  split; [now rewrite length_map|].
  split; [now rewrite length_map|].
  intros i xi Hxi. split; now apply nth_error_samples.
Qed.

Lemma sample_grid_witness :
  0 < 10
  /\ exists x shear moment R1 R2,
       compute_sfd_bmd 10 [(5, 10)] = Ok (x, shear, moment, R1, R2)
       /\ List.length x = 400%nat
       /\ (forall i xi xi',
             nth_error x i = Some xi -> nth_error x (S i) = Some xi' ->
             xi' - xi == 10 / 399)
       /\ (exists x0, nth_error x 0 = Some x0 /\ x0 == 0)
       /\ nth_error x 399 = Some 10
       /\ (forall i j xi xj,
             (i < j)%nat ->
             nth_error x i = Some xi -> nth_error x j = Some xj ->
             xi < xj)
       /\ List.length shear = 400%nat
       /\ List.length moment = 400%nat
       /\ (forall i xi,
             nth_error x i = Some xi ->
             nth_error shear i = Some (shear_at R1 [(5, 10)] xi)
             /\ nth_error moment i = Some (moment_at R1 [(5, 10)] xi)).
Proof.
  assert (Hpos : 0 < 10) by reflexivity.
  split; [exact Hpos|].
  exact (sample_grid 10 [(5, 10)] Hpos).
Defined.

(** C6.  For length = 10 and loads = [(5, 10)] the routine yields R1 = 5
    and R2 = 5; the shear it evaluates is 5 at positions x < 5 and -5 at
    positions x >= 5; the moment it evaluates is 0 at x = 0, 25 at x = 5
    and 0 at x = 10. *)
Theorem centred_load_scenario :
  exists x shear moment R1 R2,
    compute_sfd_bmd 10 [(5, 10)] = Ok (x, shear, moment, R1, R2)
    /\ R1 == 5 /\ R2 == 5
    /\ shear = map (shear_at R1 [(5, 10)]) x
    /\ moment = map (moment_at R1 [(5, 10)]) x
    /\ (forall xi, xi < 5 -> shear_at R1 [(5, 10)] xi == 5)
    /\ (forall xi, xi >= 5 -> shear_at R1 [(5, 10)] xi == -5)
    /\ moment_at R1 [(5, 10)] 0 == 0
    /\ moment_at R1 [(5, 10)] 5 == 25
    /\ moment_at R1 [(5, 10)] 10 == 0
    /\ (exists M, nth_error moment 0 = Some M /\ M == 0)
    /\ (exists M, nth_error moment 399 = Some M /\ M == 0).
Proof.
  assert (Hnz : ~ 10 == 0) by (intros H; discriminate H).
  rewrite (compute_sfd_bmd_nonzero _ _ Hnz). cbv zeta.
  do 5 eexists. split; [reflexivity|].
  assert (HR1 : reaction_R1 10 [(5, 10)] == 5) by reflexivity.
  split; [exact HR1|]. split; [reflexivity|].
  split; [reflexivity|]. split; [reflexivity|].
  split; [|split].
  - intros xi Hlt. rewrite shear_at_single, (Qle_bool_false _ _ Hlt).
    exact HR1.
  - intros xi Hge. apply Qle_bool_iff in Hge.
    rewrite shear_at_single, Hge, HR1. reflexivity.
  - split; [reflexivity|]. split; [reflexivity|]. split; [reflexivity|].
    split.
    + eexists. split.
      * apply nth_error_samples, (linspace_nth_inner 0 10 398 0). lia.
      * reflexivity.
    + eexists. split; [apply nth_error_samples, last_position|].
      reflexivity.
Qed.

(** * The statics evaluator: when it raises *)





(** * The force table *)

(** Zipping the two columns of a data frame gives back its rows. *)
Lemma forces_of_rows (df : DataFrame) :
  forces_of df = map (fun row => (Position row, Force row)) df.
Proof.
  unfold forces_of, Py.zip, column.
  induction df as [|row df IH]; simpl; [reflexivity|now rewrite IH].
Qed.

(** A row of two cells fits a two-column table. *)
Lemma add_row_two (table : Tabular.t) (c c' : cell) :
  width table = 2%nat ->
  add_row table [c; c']
  = Ok {| table_spec := table_spec table; width := width table;
          data := data table ++ [Row [c; c']] |}.
Proof.
  intros Hw. unfold add_row. cbn [List.length].
  destruct (Nat.eqb_spec 2 (width table)); [reflexivity|congruence].
Qed.

(** The rows the loop appends to a two-column table. *)
Lemma add_data_rows_data (table : Tabular.t) (df : DataFrame) :
  width table = 2%nat ->
  exists table',
    add_data_rows table df = Ok table'
    /\ width table' = 2%nat
    /\ data table'
       = data table
         ++ flat_map
              (fun row => [Row [Value (Position row); Value (Force row)]; HLine])
              df.
Proof.
  revert table.
  induction df as [|row df IH]; intros table Hw; simpl.
  - exists table. now rewrite app_nil_r.
  - rewrite (add_row_two _ _ _ Hw). cbn [bind].
    destruct (IH (add_hline
                    {| table_spec := table_spec table; width := width table;
                       data := data table
                               ++ [Row [Value (Position row);
                                        Value (Force row)]] |}) Hw)
      as [table' [Hrun [Hw' Hdata]]].
    exists table'. split; [exact Hrun|]. split; [exact Hw'|].
    rewrite Hdata. cbn [add_hline data]. now rewrite <- !app_assoc.
Qed.

Lemma table_pairs_data_rows (df : DataFrame) :
  table_pairs
    (flat_map
       (fun row => [Row [Value (Position row); Value (Force row)]; HLine]) df)
  = map (fun row => (Position row, Force row)) df.
Proof.
  induction df as [|row df IH]; simpl; [reflexivity|now rewrite IH].
Qed.

(** C8.  For every input table the table block of the report holds, after
    its header, one row per input row, and the (position, magnitude) pairs
    it shows are exactly those of the input, each once and in input order;
    they are also the load list handed to the evaluator. *)
Theorem force_table_round_trip (df : DataFrame) :
  exists table,
    force_table df = Ok table
    /\ data table
       = [HLine; Row [Bold "Position (m)"; Bold "Force (kN)"]; HLine]
         ++ flat_map
              (fun row => [Row [Value (Position row); Value (Force row)]; HLine])
              df
    /\ table_pairs (data table) = map (fun row => (Position row, Force row)) df
    /\ table_pairs (data table) = forces_of df.
Proof.
  unfold force_table.
  change (add_row (add_hline (create "|c|c|"))
            [Bold "Position (m)"; Bold "Force (kN)"])
    with (Ok {| table_spec := "|c|c|"; width := 2;
                data := [HLine; Row [Bold "Position (m)"; Bold "Force (kN)"]] |}).
  cbn [bind].
  destruct (add_data_rows_data
              (add_hline
                 {| table_spec := "|c|c|"; width := 2;
                    data := [HLine; Row [Bold "Position (m)"; Bold "Force (kN)"]] |})
              df eq_refl)
    as [table [Hrun [_ Hdata]]].
  exists table. split; [exact Hrun|].
  assert (Hpairs : table_pairs (data table)
                   = map (fun row => (Position row, Force row)) df).
  { rewrite Hdata. cbn [add_hline data app table_pairs].
    apply table_pairs_data_rows. }
  split; [exact Hdata|]. split; [exact Hpairs|].
  now rewrite forces_of_rows.
Qed.

(** * The statics evaluator: order of the loads *)

Lemma loads_upto_Permutation (forces forces' : list Load) (xi : Q) :
  Permutation forces forces' ->
  Permutation (loads_upto xi forces) (loads_upto xi forces').
Proof.
  unfold loads_upto.
  induction 1 as [|f l l' _ IH|f g l|l l' l'' _ IH1 _ IH2]; simpl.
  - constructor.
  - destruct (Qle_bool (fst f) xi); [apply perm_skip, IH|exact IH].
  - destruct (Qle_bool (fst f) xi), (Qle_bool (fst g) xi);
      try reflexivity. apply perm_swap.
  - now transitivity (filter (fun f : Load => Qle_bool (fst f) xi) l').
Qed.

Lemma sum_map_Permutation (forces forces' : list Load) (term : Load -> Q) :
  Permutation forces forces' ->
  Py.sum (map term forces) == Py.sum (map term forces').
Proof. intros Hperm. now apply sum_Permutation, Permutation_map. Qed.

Lemma shear_at_Permutation (R1 R1' : Q) (forces forces' : list Load) (xi : Q) :
  R1 == R1' ->
  Permutation forces forces' ->
  shear_at R1 forces xi == shear_at R1' forces' xi.
Proof.
  intros HR Hperm. rewrite !shear_at_closed, HR.
  unfold total_load.
  apply Qplus_inj_l, Qopp_comp.
  now apply sum_map_Permutation, loads_upto_Permutation.
Qed.

Lemma moment_at_Permutation (R1 R1' : Q) (forces forces' : list Load) (xi : Q) :
  R1 == R1' ->
  Permutation forces forces' ->
  moment_at R1 forces xi == moment_at R1' forces' xi.
Proof.
  intros HR Hperm. rewrite !moment_at_closed, HR.
  unfold moment_about.
  apply Qplus_inj_l, Qopp_comp.
  now apply sum_map_Permutation, loads_upto_Permutation.
Qed.

Lemma Qeq_list_refl (l : list Q) : Qeq_list l l.
Proof. induction l; constructor; [reflexivity|assumption]. Qed.

Lemma Qeq_list_map (f g : Q -> Q) (l : list Q) :
  (forall v, f v == g v) -> Qeq_list (map f l) (map g l).
Proof.
  intros Hfg. induction l; simpl; constructor; [apply Hfg|assumption].
Qed.

(** C9.  For every length > 0 and any two load lists that are permutations
    of each other, the routine returns the same positions, shear sequence,
    moment sequence, R1 and R2: the result does not depend on the order of
    the loads. *)
Theorem load_order_irrelevant (length : Q) (forces forces' : list Load) :
  0 < length ->
  Permutation forces forces' ->
  exists r r',
    compute_sfd_bmd length forces = Ok r
    /\ compute_sfd_bmd length forces' = Ok r'
    /\ same_outcome (Ok r) (Ok r').
Proof.
  intros Hpos Hperm. apply positive_span_nonzero in Hpos.
  rewrite !(compute_sfd_bmd_nonzero _ _ Hpos). cbv zeta.
  do 2 eexists. split; [reflexivity|]. split; [reflexivity|].
  assert (HR1 : reaction_R1 length forces == reaction_R1 length forces')
    by now apply sum_map_Permutation.
  assert (HR2 : reaction_R2 length forces == reaction_R2 length forces')
    by now apply sum_map_Permutation.
  cbn [same_outcome].
  split; [apply Qeq_list_refl|].
  split; [apply Qeq_list_map; intros xi; now apply shear_at_Permutation|].
  split; [apply Qeq_list_map; intros xi; now apply moment_at_Permutation|].
  split; assumption.
Qed.

Lemma load_order_irrelevant_witness :
  0 < 6 /\ Permutation [(2, 6); (4, 3)] [(4, 3); (2, 6)]
  /\ exists r r',
       compute_sfd_bmd 6 [(2, 6); (4, 3)] = Ok r
       /\ compute_sfd_bmd 6 [(4, 3); (2, 6)] = Ok r'
       /\ same_outcome (Ok r) (Ok r').
Proof.
  assert (Hpos : 0 < 6) by reflexivity.
  assert (Hperm : Permutation [(2, 6); (4, 3)] [(4, 3); (2, 6)])
    by apply perm_swap.
  split; [exact Hpos|]. split; [exact Hperm|].
  exact (load_order_irrelevant 6 _ _ Hpos Hperm).
Defined.

(** * Further properties of the statics evaluator *)

(** ** More on sums *)

Lemma sum_app (l l' : list Q) : Py.sum (l ++ l') == Py.sum l + Py.sum l'.
Proof.
  induction l as [|q l IH]; simpl.
  - rewrite sum_nil. ring.
  - rewrite !sum_cons, IH. ring.
Qed.

Lemma sum_filter_indicator {A} (p : A -> bool) (term : A -> Q) (l : list A) :
  Py.sum (map term (filter p l))
  == Py.sum (map (fun v => if p v then term v else 0) l).
Proof.
  induction l as [|v l IH]; simpl.
  - reflexivity.
  - destruct (p v); simpl; rewrite !sum_cons, IH; ring.
Qed.

Lemma sum_map_minus {A} (f g : A -> Q) (l : list A) :
  Py.sum (map (fun v => f v - g v) l) == Py.sum (map f l) - Py.sum (map g l).
Proof.
  induction l as [|v l IH]; simpl.
  - rewrite !sum_nil. ring.
  - rewrite !sum_cons, IH. ring.
Qed.

Lemma sum_map_le {A} (f g : A -> Q) (l : list A) :
  (forall v, In v l -> f v <= g v) ->
  Py.sum (map f l) <= Py.sum (map g l).
Proof.
  induction l as [|v l IH]; intros Hfg; simpl.
  - apply Qle_refl.
  - rewrite !sum_cons.
    apply Qplus_le_compat; [apply Hfg; now left|].
    apply IH. intros w Hw. apply Hfg. now right.
Qed.

Lemma sum_map_zero {A} (l : list A) : Py.sum (map (fun _ => 0) l) == 0.
Proof.
  induction l as [|v l IH]; simpl.
  - reflexivity.
  - rewrite sum_cons, IH. ring.
Qed.

Lemma sum_map_nonneg {A} (f : A -> Q) (l : list A) :
  (forall v, In v l -> 0 <= f v) -> 0 <= Py.sum (map f l).
Proof.
  intros Hf. rewrite <- (sum_map_zero l). now apply sum_map_le.
Qed.

(** ** Shear and moment as sums of one term per load *)

Lemma reaction_R1_terms (length : Q) (forces : list Load) :
  reaction_R1 length forces
  = Py.sum (map (fun f : Load => snd f * (length - fst f) / length) forces).
Proof.
  unfold reaction_R1. f_equal. apply map_ext. now intros [a P].
Qed.

Lemma reaction_R2_terms (length : Q) (forces : list Load) :
  reaction_R2 length forces
  = Py.sum (map (fun f : Load => snd f * fst f / length) forces).
Proof.
  unfold reaction_R2. f_equal. apply map_ext. now intros [a P].
Qed.

Lemma shear_at_terms (length : Q) (forces : list Load) (xi : Q) :
  shear_at (reaction_R1 length forces) forces xi
  == Py.sum (map (shear_term length xi) forces).
Proof.
  rewrite shear_at_closed, reaction_R1_terms.
  unfold total_load, loads_upto, shear_term.
  now rewrite sum_filter_indicator, <- sum_map_minus.
Qed.

Lemma moment_at_terms (length : Q) (forces : list Load) (xi : Q) :
  moment_at (reaction_R1 length forces) forces xi
  == Py.sum (map (moment_term length xi) forces).
Proof.
  rewrite moment_at_closed, reaction_R1_terms.
  unfold moment_about, loads_upto, moment_term.
  now rewrite sum_filter_indicator, <- sum_map_scale, <- sum_map_minus.
Qed.

(** ** The loops against the summation formulas *)

(** X1.  Whenever the span is not zero, every sampled shear value is R1
    less the sum of the loads at or before the sample position, and every
    sampled moment value is R1 * xi less the sum of P * (xi - a) over the
    same loads. *)
Theorem samples_closed_form (length : Q) (forces : list Load) :
  ~ length == 0 ->
  exists x shear moment R1 R2,
    compute_sfd_bmd length forces = Ok (x, shear, moment, R1, R2)
    /\ forall i xi,
         nth_error x i = Some xi ->
         exists V M,
           nth_error shear i = Some V
           /\ nth_error moment i = Some M
           /\ V == R1 - total_load (loads_upto xi forces)
           /\ M == R1 * xi - moment_about xi (loads_upto xi forces).
Proof.
  intros Hnz. rewrite (compute_sfd_bmd_nonzero _ _ Hnz). cbv zeta.
  do 5 eexists. split; [reflexivity|].
  intros i xi Hxi. do 2 eexists.
  split; [apply nth_error_samples, Hxi|].
  split; [apply nth_error_samples, Hxi|].
  split; [apply shear_at_closed|apply moment_at_closed].
Qed.

Lemma samples_closed_form_witness :
  ~ 6 == 0
  /\ exists x shear moment R1 R2,
       compute_sfd_bmd 6 [(2, 6); (4, 3)] = Ok (x, shear, moment, R1, R2)
       /\ forall i xi,
            nth_error x i = Some xi ->
            exists V M,
              nth_error shear i = Some V
              /\ nth_error moment i = Some M
              /\ V == R1 - total_load (loads_upto xi [(2, 6); (4, 3)])
              /\ M == R1 * xi - moment_about xi (loads_upto xi [(2, 6); (4, 3)]).
Proof.
  assert (Hnz : ~ 6 == 0) by (intros H; discriminate H).
  split; [exact Hnz|].
  exact (samples_closed_form 6 [(2, 6); (4, 3)] Hnz).
Defined.

(** Between two positions the shear drops by the loads located between
    them. *)
Lemma indicator_drop (forces : list Load) (lo hi : Q) :
  lo <= hi ->
  Py.sum (map (fun f : Load => if Qle_bool (fst f) hi then snd f else 0)
            forces)
  - Py.sum (map (fun f : Load => if Qle_bool (fst f) lo then snd f else 0)
              forces)
  == Py.sum
       (map (fun f : Load =>
               if negb (Qle_bool (fst f) lo) && Qle_bool (fst f) hi
               then snd f else 0)
          forces).
Proof.
  intros Hle. rewrite <- sum_map_minus. apply sum_map_pointwise.
  intros [a P] _. cbn [fst snd].
  destruct (Qle_bool a lo) eqn:Elo; cbn [negb andb].
  - apply Qle_bool_iff in Elo.
    assert (Ehi : Qle_bool a hi = true) by (apply Qle_bool_iff; lra).
    rewrite Ehi. ring.
  - destruct (Qle_bool a hi); ring.
Qed.

Lemma shear_at_drop (R1 : Q) (forces : list Load) (lo hi : Q) :
  lo <= hi ->
  shear_at R1 forces lo - shear_at R1 forces hi
  == total_load (loads_between lo hi forces).
Proof.
  intros Hle. rewrite !shear_at_closed.
  pose proof (indicator_drop forces lo hi Hle) as Hdrop.
  unfold total_load, loads_upto, loads_between.
  rewrite !sum_filter_indicator.
  unfold Load in *. lra.
Qed.

(** X2.  For a positive span and any loads, between two samples i < j the
    sampled shear drops by exactly the sum of the loads located after
    position i and at or before position j; with no load there the two
    values agree. *)
Theorem shear_steps_between_samples (length : Q) (forces : list Load) :
  0 < length ->
  exists x shear moment R1 R2,
    compute_sfd_bmd length forces = Ok (x, shear, moment, R1, R2)
    /\ forall i j xi xj,
         (i < j)%nat ->
         nth_error x i = Some xi -> nth_error x j = Some xj ->
         exists Vi Vj,
           nth_error shear i = Some Vi
           /\ nth_error shear j = Some Vj
           /\ Vi - Vj == total_load (loads_between xi xj forces)
           /\ (loads_between xi xj forces = [] -> Vi == Vj).
Proof.
  intros Hpos. pose proof (positive_span_nonzero _ Hpos) as Hnz.
  rewrite (compute_sfd_bmd_nonzero _ _ Hnz). cbv zeta.
  do 5 eexists. split; [reflexivity|].
  intros i j xi xj Hij Hxi Hxj.
  pose proof (grid_increasing _ _ _ _ _ Hpos Hij Hxi Hxj) as Hlt.
  assert (Hdrop := shear_at_drop (reaction_R1 length forces) forces xi xj
                     (Qlt_le_weak _ _ Hlt)).
  do 2 eexists.
  split; [apply nth_error_samples, Hxi|].
  split; [apply nth_error_samples, Hxj|].
  split; [exact Hdrop|].
  intros Hnone. rewrite Hnone in Hdrop. unfold total_load in Hdrop.
  simpl in Hdrop. rewrite sum_nil in Hdrop. lra.
Qed.

Lemma shear_steps_between_samples_witness :
  0 < 6
  /\ exists x shear moment R1 R2,
       compute_sfd_bmd 6 [(2, 6); (4, 3)] = Ok (x, shear, moment, R1, R2)
       /\ forall i j xi xj,
            (i < j)%nat ->
            nth_error x i = Some xi -> nth_error x j = Some xj ->
            exists Vi Vj,
              nth_error shear i = Some Vi
              /\ nth_error shear j = Some Vj
              /\ Vi - Vj == total_load (loads_between xi xj [(2, 6); (4, 3)])
              /\ (loads_between xi xj [(2, 6); (4, 3)] = [] -> Vi == Vj).
Proof.
  assert (Hpos : 0 < 6) by reflexivity.
  split; [exact Hpos|].
  exact (shear_steps_between_samples 6 [(2, 6); (4, 3)] Hpos).
Defined.

(** ** Equilibrium without the preconditions *)

Lemma reaction_R2_moment (length : Q) (forces : list Load) :
  ~ length == 0 ->
  reaction_R2 length forces * length
  == Py.sum (map (fun f : Load => snd f * fst f) forces).
Proof.
  intros Hlen. rewrite reaction_R2_terms, <- sum_map_scale.
  apply sum_map_pointwise. intros [a P] _. simpl. now field.
Qed.

(** X3.  In exact arithmetic equilibrium needs neither a positive span
    nor loads on the span: for every non-zero length, negative ones
    included, and loads anywhere, the routine returns reactions with
    R1 + R2 = sum of P, R1 * length = sum of P * (length - a) and
    R2 * length = sum of P * a. *)
Theorem equilibrium_any_span (length : Q) (forces : list Load) :
  ~ length == 0 ->
  exists x shear moment R1 R2,
    compute_sfd_bmd length forces = Ok (x, shear, moment, R1, R2)
    /\ R1 + R2 == total_load forces
    /\ R1 * length == far_moment length forces
    /\ R2 * length == Py.sum (map (fun f : Load => snd f * fst f) forces).
Proof.
  intros Hnz. rewrite (compute_sfd_bmd_nonzero _ _ Hnz). cbv zeta.
  do 5 eexists. split; [reflexivity|].
  split; [now apply reactions_balance|].
  split; [now apply reaction_R1_moment|now apply reaction_R2_moment].
Qed.

Lemma equilibrium_any_span_witness :
  ~ -2 == 0
  /\ exists x shear moment R1 R2,
       compute_sfd_bmd (-2) [(-3, 4); (5, 1)] = Ok (x, shear, moment, R1, R2)
       /\ R1 + R2 == total_load [(-3, 4); (5, 1)]
       /\ R1 * -2 == far_moment (-2) [(-3, 4); (5, 1)]
       /\ R2 * -2
          == Py.sum (map (fun f : Load => snd f * fst f) [(-3, 4); (5, 1)]).
Proof.
  assert (Hnz : ~ -2 == 0) by (intros H; discriminate H).
  split; [exact Hnz|].
  exact (equilibrium_any_span (-2) [(-3, 4); (5, 1)] Hnz).
Defined.

(** ** The sample positions lie on the span *)

Lemma of_nat_nonneg (i : nat) : 0 <= Np.of_nat i.
Proof.
  unfold Np.of_nat. change 0 with (inject_Z 0). rewrite <- Zle_Qle. lia.
Qed.

Lemma of_nat_le (i j : nat) : (i <= j)%nat -> Np.of_nat i <= Np.of_nat j.
Proof. intros Hij. unfold Np.of_nat. rewrite <- Zle_Qle. lia. Qed.

Lemma grid_within (length : Q) (i : nat) (xi : Q) :
  0 < length ->
  nth_error (Np.linspace 0 length N_SAMPLES) i = Some xi ->
  0 <= xi /\ xi <= length.
Proof.
  intros Hpos Hxi. apply grid_nth in Hxi as [Hi Hxi].
  assert (Hstep : 0 < length / 399) by (apply Qlt_shift_div_l; lra).
  pose proof (of_nat_nonneg i) as H0.
  assert (H399 : Np.of_nat i <= 399).
  { change 399 with (Np.of_nat 399). apply of_nat_le. lia. }
  rewrite Hxi. split.
  - apply Qmult_le_0_compat; lra.
  - setoid_replace length with (399 * (length / 399)) at 2 by field.
    apply Qmult_le_compat_r; lra.
Qed.

(** X4.  For a positive span every sample position lies on the span:
    0 <= x[i] <= length for all 400 entries. *)
Theorem samples_on_span (length : Q) (forces : list Load) :
  0 < length ->
  exists x shear moment R1 R2,
    compute_sfd_bmd length forces = Ok (x, shear, moment, R1, R2)
    /\ Forall (fun xi => 0 <= xi /\ xi <= length) x.
Proof.
  intros Hpos. pose proof (positive_span_nonzero _ Hpos) as Hnz.
  rewrite (compute_sfd_bmd_nonzero _ _ Hnz). cbv zeta.
  do 5 eexists. split; [reflexivity|].
  apply Forall_forall. intros xi Hin.
  apply In_nth_error in Hin as [i Hxi].
  exact (grid_within _ _ _ Hpos Hxi).
Qed.

Lemma samples_on_span_witness :
  0 < 6
  /\ exists x shear moment R1 R2,
       compute_sfd_bmd 6 [(2, 6); (4, 3)] = Ok (x, shear, moment, R1, R2)
       /\ Forall (fun xi => 0 <= xi /\ xi <= 6) x.
Proof.
  assert (Hpos : 0 < 6) by reflexivity.
  split; [exact Hpos|].
  exact (samples_on_span 6 [(2, 6); (4, 3)] Hpos).
Defined.

(** ** One load *)

Lemma moment_at_single (R1 a P xi : Q) :
  moment_at R1 [(a, P)] xi
  = if Qle_bool a xi then R1 * xi - P * (xi - a) else R1 * xi.
Proof.
  unfold moment_at, sample_at. simpl. now destruct (Qle_bool a xi).
Qed.

Lemma reaction_R1_single (length a P : Q) :
  reaction_R1 length [(a, P)] == P * (length - a) / length.
Proof. unfold reaction_R1. simpl. rewrite sum_cons, sum_nil. ring. Qed.

Lemma reaction_R2_single (length a P : Q) :
  reaction_R2 length [(a, P)] == P * a / length.
Proof. unfold reaction_R2. simpl. rewrite sum_cons, sum_nil. ring. Qed.

(** The moment of one load at or before it, and from it on. *)
Lemma moment_at_single_cases (R1 a P xi : Q) :
  (xi <= a -> moment_at R1 [(a, P)] xi == R1 * xi)
  /\ (a <= xi -> moment_at R1 [(a, P)] xi == R1 * xi - P * (xi - a)).
Proof.
  rewrite moment_at_single.
  destruct (Qle_bool a xi) eqn:E.
  - apply Qle_bool_iff in E. split; intros H; [|reflexivity].
    assert (Heq : xi == a) by lra. rewrite Heq. ring.
  - split; intros H; [reflexivity|].
    apply Qle_bool_iff in H. congruence.
Qed.

Lemma Qmult_le_l_nonneg (z x y : Q) : 0 <= z -> x <= y -> z * x <= z * y.
Proof.
  intros Hz Hxy. rewrite !(Qmult_comm z). now apply Qmult_le_compat_r.
Qed.

(** Under one downward load on the span the moment is largest under the
    load. *)
Lemma moment_at_single_peak (length a P xi : Q) :
  0 < length -> 0 <= P -> 0 <= a -> a <= length ->
  moment_at (P * (length - a) / length) [(a, P)] xi
  <= P * a * (length - a) / length.
Proof.
  intros Hpos HP Ha HaL.
  assert (Hinv : 0 < / length) by now apply Qinv_lt_0_compat.
  rewrite moment_at_single.
  destruct (Qle_bool a xi) eqn:E.
  - apply Qle_bool_iff in E.
    setoid_replace (P * (length - a) / length * xi - P * (xi - a))
      with (P * a * (length - xi) / length) by (field; lra).
    unfold Qdiv. apply Qmult_le_compat_r; [|lra].
    apply Qmult_le_l_nonneg; [apply Qmult_le_0_compat; lra|lra].
  - assert (Hlt : xi < a).
    { apply Qnot_le_lt. intros H. apply Qle_bool_iff in H. congruence. }
    setoid_replace (P * (length - a) / length * xi)
      with (P * xi * (length - a) / length) by (field; lra).
    unfold Qdiv. apply Qmult_le_compat_r; [|lra].
    apply Qmult_le_compat_r; [|lra].
    apply Qmult_le_l_nonneg; [exact HP|lra].
Qed.


Lemma moment_at_R1 (R1 R1' : Q) (forces : list Load) (xi : Q) :
  R1 == R1' -> moment_at R1 forces xi == moment_at R1' forces xi.
Proof. intros HR. now apply moment_at_Permutation. Qed.

(** X5.  Under a single load (a, P) on a positive span the sampled moment
    is R1 * x up to the load and R1 * x - P * (x - a) from the load on (the
    two agree at x = a), with R1 = P * (length - a) / length and
    R2 = P * a / length; if the load is downward and on the span, no
    sampled moment exceeds P * a * (length - a) / length, the moment under
    the load. *)
Theorem single_load_moment (length a P : Q) :
  0 < length ->
  exists x shear moment R1 R2,
    compute_sfd_bmd length [(a, P)] = Ok (x, shear, moment, R1, R2)
    /\ R1 == P * (length - a) / length
    /\ R2 == P * a / length
    /\ forall i xi,
         nth_error x i = Some xi ->
         exists M,
           nth_error moment i = Some M
           /\ (xi <= a -> M == R1 * xi)
           /\ (a <= xi -> M == R1 * xi - P * (xi - a))
           /\ (0 <= P -> 0 <= a /\ a <= length ->
               M <= P * a * (length - a) / length).
Proof.
  intros Hpos. pose proof (positive_span_nonzero _ Hpos) as Hnz.
  rewrite (compute_sfd_bmd_nonzero _ _ Hnz). cbv zeta.
  do 5 eexists. split; [reflexivity|].
  split; [apply reaction_R1_single|].
  split; [apply reaction_R2_single|].
  intros i xi Hxi. eexists.
  split; [apply nth_error_samples, Hxi|].
  split; [apply moment_at_single_cases|].
  split; [apply moment_at_single_cases|].
  intros HP [Ha HaL].
  rewrite (moment_at_R1 _ _ _ _ (reaction_R1_single length a P)).
  now apply moment_at_single_peak.
Qed.

Lemma single_load_moment_witness :
  0 < 10
  /\ exists x shear moment R1 R2,
       compute_sfd_bmd 10 [(4, 5)] = Ok (x, shear, moment, R1, R2)
       /\ R1 == 5 * (10 - 4) / 10
       /\ R2 == 5 * 4 / 10
       /\ forall i xi,
            nth_error x i = Some xi ->
            exists M,
              nth_error moment i = Some M
              /\ (xi <= 4 -> M == R1 * xi)
              /\ (4 <= xi -> M == R1 * xi - 5 * (xi - 4))
              /\ (0 <= 5 -> 0 <= 4 /\ 4 <= 10 ->
                  M <= 5 * 4 * (10 - 4) / 10).
Proof.
  assert (Hpos : 0 < 10) by reflexivity.
  split; [exact Hpos|].
  exact (single_load_moment 10 4 5 Hpos).
Defined.

(** X6.  A load placed beyond the far support is never reached by a
    sample: every sampled shear stays at R1 and every sampled moment at
    R1 * x, so the last moment sample is P * (length - a) and vanishes only
    when P = 0. *)
Theorem load_beyond_span (length a P : Q) :
  0 < length ->
  length < a ->
  exists x shear moment R1 R2,
    compute_sfd_bmd length [(a, P)] = Ok (x, shear, moment, R1, R2)
    /\ (forall i xi,
          nth_error x i = Some xi ->
          exists V M,
            nth_error shear i = Some V /\ nth_error moment i = Some M
            /\ V == R1 /\ M == R1 * xi)
    /\ exists M,
         nth_error moment 399 = Some M
         /\ M == P * (length - a)
         /\ (~ P == 0 -> ~ M == 0).
Proof.
  intros Hpos Hbeyond. pose proof (positive_span_nonzero _ Hpos) as Hnz.
  rewrite (compute_sfd_bmd_nonzero _ _ Hnz). cbv zeta.
  do 5 eexists. split; [reflexivity|].
  assert (Hout : forall xi, xi <= length -> Qle_bool a xi = false).
  { intros xi Hxi. apply Qle_bool_false. lra. }
  split.
  - intros i xi Hxi.
    destruct (grid_within _ _ _ Hpos Hxi) as [_ Hle].
    do 2 eexists.
    split; [apply nth_error_samples, Hxi|].
    split; [apply nth_error_samples, Hxi|].
    rewrite shear_at_single, moment_at_single, (Hout xi Hle).
    split; reflexivity.
  - eexists. split; [apply nth_error_samples, last_position|].
    rewrite moment_at_single, (Hout length) by apply Qle_refl.
    assert (HM : reaction_R1 length [(a, P)] * length == P * (length - a)).
    { rewrite reaction_R1_single. now field. }
    split; [exact HM|].
    intros HP HM0. rewrite HM in HM0.
    apply Qmult_integral in HM0 as [H|H]; [contradiction|lra].
Qed.

Lemma load_beyond_span_witness :
  0 < 6 /\ 6 < 8
  /\ exists x shear moment R1 R2,
       compute_sfd_bmd 6 [(8, 3)] = Ok (x, shear, moment, R1, R2)
       /\ (forall i xi,
             nth_error x i = Some xi ->
             exists V M,
               nth_error shear i = Some V /\ nth_error moment i = Some M
               /\ V == R1 /\ M == R1 * xi)
       /\ exists M,
            nth_error moment 399 = Some M
            /\ M == 3 * (6 - 8)
            /\ (~ 3 == 0 -> ~ M == 0).
Proof.
  assert (Hpos : 0 < 6) by reflexivity.
  assert (Hbeyond : 6 < 8) by reflexivity.
  split; [exact Hpos|]. split; [exact Hbeyond|].
  exact (load_beyond_span 6 8 3 Hpos Hbeyond).
Defined.

(** ** The near support *)

Lemma Qle_bool_Qeq (a x x' : Q) : x == x' -> Qle_bool a x = Qle_bool a x'.
Proof.
  intros Hx.
  destruct (Qle_bool a x) eqn:E, (Qle_bool a x') eqn:E'; try reflexivity.
  - apply Qle_bool_iff in E. rewrite Hx in E. apply Qle_bool_iff in E.
    congruence.
  - apply Qle_bool_iff in E'. rewrite <- Hx in E'. apply Qle_bool_iff in E'.
    congruence.
Qed.

Lemma loads_upto_Qeq (x x' : Q) (forces : list Load) :
  x == x' -> loads_upto x forces = loads_upto x' forces.
Proof.
  intros Hx. unfold loads_upto. apply filter_ext.
  intros f. now apply Qle_bool_Qeq.
Qed.

Lemma moment_about_at_start (x0 : Q) (forces : list Load) :
  x0 == 0 ->
  Forall (fun f : Load => 0 <= fst f) forces ->
  moment_about x0 (loads_upto x0 forces) == 0.
Proof.
  intros Hx0 Hpos. unfold moment_about, loads_upto.
  rewrite sum_filter_indicator, <- (sum_map_zero forces).
  apply sum_map_pointwise. intros [a P] Hin. cbn [fst snd].
  rewrite Forall_forall in Hpos. specialize (Hpos _ Hin). cbn [fst] in Hpos.
  destruct (Qle_bool a x0) eqn:E; [|reflexivity].
  apply Qle_bool_iff in E.
  assert (Ha : x0 - a == 0) by lra. rewrite Ha. ring.
Qed.

(** X7.  With no load before the near support (all positions >= 0), the
    first moment sample is 0 and the first shear sample is R1 less the
    loads standing on the support itself; when all positions are > 0 the
    first shear sample is R1. *)
Theorem near_support_start (length : Q) (forces : list Load) :
  0 < length ->
  Forall (fun f : Load => 0 <= fst f) forces ->
  exists x shear moment R1 R2,
    compute_sfd_bmd length forces = Ok (x, shear, moment, R1, R2)
    /\ (exists M, nth_error moment 0 = Some M /\ M == 0)
    /\ exists V,
         nth_error shear 0 = Some V
         /\ V == R1 - total_load (loads_upto 0 forces)
         /\ (Forall (fun f : Load => 0 < fst f) forces -> V == R1).
Proof.
  intros Hpos Hnonneg. pose proof (positive_span_nonzero _ Hpos) as Hnz.
  rewrite (compute_sfd_bmd_nonzero _ _ Hnz). cbv zeta.
  do 5 eexists. split; [reflexivity|].
  destruct (grid_first length) as [x0 [Hx0 Hz]].
  split.
  - eexists. split; [apply nth_error_samples, Hx0|].
    rewrite moment_at_closed, (moment_about_at_start _ _ Hz Hnonneg), Hz.
    ring.
  - eexists. split; [apply nth_error_samples, Hx0|].
    assert (HV : shear_at (reaction_R1 length forces) forces x0
                 == reaction_R1 length forces
                    - total_load (loads_upto 0 forces)).
    { rewrite shear_at_closed. now rewrite (loads_upto_Qeq _ _ _ Hz). }
    split; [exact HV|].
    intros Hstrict. rewrite HV.
    assert (Hnone : loads_upto 0 forces = []).
    { unfold loads_upto. clear -Hstrict.
      induction Hstrict as [|f forces Hf _ IH]; simpl; [reflexivity|].
      now rewrite (Qle_bool_false _ _ Hf). }
    rewrite Hnone. unfold total_load. simpl. rewrite sum_nil. ring.
Qed.

Lemma near_support_start_witness :
  0 < 6 /\ Forall (fun f : Load => 0 <= fst f) [(0, 2); (4, 3)]
  /\ exists x shear moment R1 R2,
       compute_sfd_bmd 6 [(0, 2); (4, 3)] = Ok (x, shear, moment, R1, R2)
       /\ (exists M, nth_error moment 0 = Some M /\ M == 0)
       /\ exists V,
            nth_error shear 0 = Some V
            /\ V == R1 - total_load (loads_upto 0 [(0, 2); (4, 3)])
            /\ (Forall (fun f : Load => 0 < fst f) [(0, 2); (4, 3)] -> V == R1).
Proof.
  assert (Hpos : 0 < 6) by reflexivity.
  assert (Hnonneg : Forall (fun f : Load => 0 <= fst f) [(0, 2); (4, 3)])
    by (repeat constructor; simpl; lra).
  split; [exact Hpos|]. split; [exact Hnonneg|].
  exact (near_support_start 6 [(0, 2); (4, 3)] Hpos Hnonneg).
Defined.

(** ** Superposition *)

Lemma shear_at_app (length : Q) (forces forces' : list Load) (xi : Q) :
  shear_at (reaction_R1 length (forces ++ forces')) (forces ++ forces') xi
  == shear_at (reaction_R1 length forces) forces xi
     + shear_at (reaction_R1 length forces') forces' xi.
Proof. now rewrite !shear_at_terms, map_app, sum_app. Qed.

Lemma moment_at_app (length : Q) (forces forces' : list Load) (xi : Q) :
  moment_at (reaction_R1 length (forces ++ forces')) (forces ++ forces') xi
  == moment_at (reaction_R1 length forces) forces xi
     + moment_at (reaction_R1 length forces') forces' xi.
Proof. now rewrite !moment_at_terms, map_app, sum_app. Qed.

(** X8.  Superposition: for a non-zero span the result for two load lists
    put together is the sum of the results for each: same positions, and
    R1, R2, every shear sample and every moment sample add up. *)
Theorem superposition (length : Q) (forces forces' : list Load) :
  ~ length == 0 ->
  exists x shear moment R1 R2 shear' moment' R1' R2' shear'' moment'' R1'' R2'',
    compute_sfd_bmd length forces = Ok (x, shear, moment, R1, R2)
    /\ compute_sfd_bmd length forces' = Ok (x, shear', moment', R1', R2')
    /\ compute_sfd_bmd length (forces ++ forces')
       = Ok (x, shear'', moment'', R1'', R2'')
    /\ R1'' == R1 + R1' /\ R2'' == R2 + R2'
    /\ forall i xi,
         nth_error x i = Some xi ->
         exists V V' V'' M M' M'',
           nth_error shear i = Some V /\ nth_error shear' i = Some V'
           /\ nth_error shear'' i = Some V''
           /\ nth_error moment i = Some M /\ nth_error moment' i = Some M'
           /\ nth_error moment'' i = Some M''
           /\ V'' == V + V' /\ M'' == M + M'.
Proof.
  intros Hnz. rewrite !(compute_sfd_bmd_nonzero _ _ Hnz). cbv zeta.
  do 13 eexists.
  split; [reflexivity|]. split; [reflexivity|]. split; [reflexivity|].
  split; [now rewrite !reaction_R1_terms, map_app, sum_app|].
  split; [now rewrite !reaction_R2_terms, map_app, sum_app|].
  intros i xi Hxi. do 6 eexists.
  repeat (split; [apply nth_error_samples, Hxi|]).
  split; [apply shear_at_app|apply moment_at_app].
Qed.

Lemma superposition_witness :
  ~ 6 == 0
  /\ exists x shear moment R1 R2 shear' moment' R1' R2'
            shear'' moment'' R1'' R2'',
       compute_sfd_bmd 6 [(2, 6)] = Ok (x, shear, moment, R1, R2)
       /\ compute_sfd_bmd 6 [(4, 3)] = Ok (x, shear', moment', R1', R2')
       /\ compute_sfd_bmd 6 ([(2, 6)] ++ [(4, 3)])
          = Ok (x, shear'', moment'', R1'', R2'')
       /\ R1'' == R1 + R1' /\ R2'' == R2 + R2'
       /\ forall i xi,
            nth_error x i = Some xi ->
            exists V V' V'' M M' M'',
              nth_error shear i = Some V /\ nth_error shear' i = Some V'
              /\ nth_error shear'' i = Some V''
              /\ nth_error moment i = Some M /\ nth_error moment' i = Some M'
              /\ nth_error moment'' i = Some M''
              /\ V'' == V + V' /\ M'' == M + M'.
Proof.
  assert (Hnz : ~ 6 == 0) by (intros H; discriminate H).
  split; [exact Hnz|].
  exact (superposition 6 [(2, 6)] [(4, 3)] Hnz).
Defined.

(** ** Downward loads *)

(** The term of one load in the moment, in closed form on either side of
    the load. *)
Lemma moment_term_cases (length xi a P : Q) :
  ~ length == 0 ->
  (a <= xi -> moment_term length xi (a, P) == P * a * (length - xi) / length)
  /\ (xi < a -> moment_term length xi (a, P) == P * xi * (length - a) / length).
Proof.
  intros Hnz. unfold moment_term. cbn [fst snd]. split; intros H.
  - apply Qle_bool_iff in H. rewrite H. now field.
  - rewrite (Qle_bool_false _ _ H). now field.
Qed.

Lemma moment_term_nonneg (length xi a P : Q) :
  0 < length -> 0 <= P -> 0 <= a /\ a <= length -> 0 <= xi /\ xi <= length ->
  0 <= moment_term length xi (a, P).
Proof.
  intros Hpos HP [Ha HaL] [Hx HxL].
  assert (Hnz : ~ length == 0) by lra.
  assert (Hinv : 0 <= / length) by (apply Qinv_le_0_compat; lra).
  destruct (moment_term_cases length xi a P Hnz) as [Hle Hlt].
  destruct (Qlt_le_dec xi a) as [H|H].
  - rewrite (Hlt H). unfold Qdiv.
    repeat apply Qmult_le_0_compat; lra.
  - rewrite (Hle H). unfold Qdiv.
    repeat apply Qmult_le_0_compat; lra.
Qed.

Lemma quarter_square (length xi : Q) :
  xi * (length - xi) <= length * length / 4.
Proof.
  assert (H : 0 <= (length - 2 * xi) * (length - 2 * xi)).
  { destruct (Qlt_le_dec (length - 2 * xi) 0) as [Hneg|Hnn].
    - setoid_replace ((length - 2 * xi) * (length - 2 * xi))
        with ((2 * xi - length) * (2 * xi - length)) by ring.
      apply Qmult_le_0_compat; lra.
    - now apply Qmult_le_0_compat. }
  setoid_replace (length * length / 4)
    with (xi * (length - xi) + (length - 2 * xi) * (length - 2 * xi) * (1 # 4))
    by field.
  set (s := (length - 2 * xi) * (length - 2 * xi)) in *.
  set (t := xi * (length - xi)).
  clearbody s t. lra.
Qed.

Lemma moment_term_bound (length xi a P : Q) :
  0 < length -> 0 <= P -> 0 <= a /\ a <= length -> 0 <= xi /\ xi <= length ->
  moment_term length xi (a, P) <= P * (length / 4).
Proof.
  intros Hpos HP [Ha HaL] [Hx HxL].
  assert (Hnz : ~ length == 0) by lra.
  destruct (moment_term_cases length xi a P Hnz) as [Hle Hlt].
  assert (Hkey : forall u v, 0 <= u -> u <= v -> v <= length ->
                 P * u * (length - v) / length <= P * (length / 4)).
  { intros u v Hu Huv Hv.
    setoid_replace (P * u * (length - v) / length)
      with (P * (u * (length - v) / length)) by (field; lra).
    apply Qmult_le_l_nonneg; [exact HP|].
    apply Qle_shift_div_r; [exact Hpos|].
    apply Qle_trans with (v * (length - v)).
    - apply Qmult_le_compat_r; lra.
    - setoid_replace (length / 4 * length) with (length * length / 4)
        by field.
      apply quarter_square. }
  destruct (Qlt_le_dec xi a) as [H|H].
  - rewrite (Hlt H).
    setoid_replace (P * xi * (length - a) / length)
      with (P * (length - a) * (length - (length - xi)) / length)
      by (field; lra).
    apply Hkey; lra.
  - rewrite (Hle H). apply Hkey; lra.
Qed.

(** X9.  In exact arithmetic: with downward loads on a positive span, no
    sampled moment is negative, and none exceeds W * length / 4, where W
    is the sum of the load magnitudes. *)
Theorem moment_within_bounds (length : Q) (forces : list Load) :
  0 < length ->
  in_span length forces ->
  downward forces ->
  exists x shear moment R1 R2,
    compute_sfd_bmd length forces = Ok (x, shear, moment, R1, R2)
    /\ Forall (fun M => 0 <= M /\ M <= total_load forces * (length / 4))
         moment.
Proof.
  intros Hpos Hspan Hdown. pose proof (positive_span_nonzero _ Hpos) as Hnz.
  rewrite (compute_sfd_bmd_nonzero _ _ Hnz). cbv zeta.
  do 5 eexists. split; [reflexivity|].
  apply Forall_map, Forall_forall. intros xi Hin.
  apply In_nth_error in Hin as [i Hxi].
  pose proof (grid_within _ _ _ Hpos Hxi) as Hon.
  unfold in_span, downward in *. rewrite Forall_forall in Hspan, Hdown.
  rewrite moment_at_terms. split.
  - apply sum_map_nonneg. intros [a P] Hf.
    apply moment_term_nonneg; try assumption.
    + exact (Hdown _ Hf).
    + exact (Hspan _ Hf).
  - unfold total_load. rewrite <- sum_map_scale.
    apply sum_map_le. intros [a P] Hf. cbn [snd].
    apply moment_term_bound; try assumption.
    + exact (Hdown _ Hf).
    + exact (Hspan _ Hf).
Qed.

Lemma moment_within_bounds_witness :
  0 < 6 /\ in_span 6 [(2, 6); (4, 3)] /\ downward [(2, 6); (4, 3)]
  /\ exists x shear moment R1 R2,
       compute_sfd_bmd 6 [(2, 6); (4, 3)] = Ok (x, shear, moment, R1, R2)
       /\ Forall
            (fun M => 0 <= M /\ M <= total_load [(2, 6); (4, 3)] * (6 / 4))
            moment.
Proof.
  assert (Hpos : 0 < 6) by reflexivity.
  assert (Hspan : in_span 6 [(2, 6); (4, 3)])
    by (repeat constructor; simpl; lra).
  assert (Hdown : downward [(2, 6); (4, 3)])
    by (repeat constructor; simpl; lra).
  split; [exact Hpos|]. split; [exact Hspan|]. split; [exact Hdown|].
  exact (moment_within_bounds 6 [(2, 6); (4, 3)] Hpos Hspan Hdown).
Defined.

Lemma total_load_nonneg (forces : list Load) :
  downward forces -> 0 <= total_load forces.
Proof.
  intros Hdown. unfold downward in Hdown. rewrite Forall_forall in Hdown.
  apply sum_map_nonneg. exact Hdown.
Qed.

Lemma downward_filter (p : Load -> bool) (forces : list Load) :
  downward forces -> downward (filter p forces).
Proof.
  unfold downward. rewrite !Forall_forall.
  intros Hdown f Hf. apply filter_In in Hf as [Hf _]. now apply Hdown.
Qed.

Lemma total_load_upto_le (xi : Q) (forces : list Load) :
  downward forces ->
  total_load (loads_upto xi forces) <= total_load forces.
Proof.
  intros Hdown. unfold downward in Hdown. rewrite Forall_forall in Hdown.
  unfold total_load, loads_upto. rewrite sum_filter_indicator.
  apply sum_map_le. intros f Hf.
  destruct (Qle_bool (fst f) xi); [apply Qle_refl|now apply Hdown].
Qed.

(** X10.  In exact arithmetic: with downward loads on a positive span the
    sampled shear never rises along the beam, and every sample lies
    between -R2 and R1. *)
Theorem shear_within_reactions (length : Q) (forces : list Load) :
  0 < length ->
  downward forces ->
  exists x shear moment R1 R2,
    compute_sfd_bmd length forces = Ok (x, shear, moment, R1, R2)
    /\ Forall (fun V => - R2 <= V /\ V <= R1) shear
    /\ forall i j Vi Vj,
         (i < j)%nat ->
         nth_error shear i = Some Vi -> nth_error shear j = Some Vj ->
         Vj <= Vi.
Proof.
  intros Hpos Hdown. pose proof (positive_span_nonzero _ Hpos) as Hnz.
  rewrite (compute_sfd_bmd_nonzero _ _ Hnz). cbv zeta.
  do 5 eexists. split; [reflexivity|].
  split.
  - apply Forall_map, Forall_forall. intros xi _.
    rewrite shear_at_closed.
    pose proof (reactions_balance length forces Hnz) as Hbal.
    pose proof (total_load_upto_le xi forces Hdown) as Hle.
    pose proof (total_load_nonneg _ (downward_filter
                  (fun f : Load => Qle_bool (fst f) xi) forces Hdown)) as Hge.
    fold (loads_upto xi forces) in Hge.
    split; lra.
  - intros i j Vi Vj Hij HVi HVj.
    rewrite nth_error_map in HVi, HVj.
    destruct (nth_error (Np.linspace 0 length N_SAMPLES) i) as [xi|] eqn:Hxi;
      [|discriminate].
    destruct (nth_error (Np.linspace 0 length N_SAMPLES) j) as [xj|] eqn:Hxj;
      [|discriminate].
    injection HVi as <-. injection HVj as <-.
    pose proof (grid_increasing _ _ _ _ _ Hpos Hij Hxi Hxj) as Hlt.
    pose proof (shear_at_drop (reaction_R1 length forces) forces xi xj
                  (Qlt_le_weak _ _ Hlt)) as Hdrop.
    pose proof (total_load_nonneg _ (downward_filter
                  (fun f : Load =>
                     negb (Qle_bool (fst f) xi) && Qle_bool (fst f) xj)
                  forces Hdown)) as Hge.
    fold (loads_between xi xj forces) in Hge.
    lra.
Qed.

Lemma shear_within_reactions_witness :
  0 < 6 /\ downward [(2, 6); (4, 3)]
  /\ exists x shear moment R1 R2,
       compute_sfd_bmd 6 [(2, 6); (4, 3)] = Ok (x, shear, moment, R1, R2)
       /\ Forall (fun V => - R2 <= V /\ V <= R1) shear
       /\ forall i j Vi Vj,
            (i < j)%nat ->
            nth_error shear i = Some Vi -> nth_error shear j = Some Vj ->
            Vj <= Vi.
Proof.
  assert (Hpos : 0 < 6) by reflexivity.
  assert (Hdown : downward [(2, 6); (4, 3)])
    by (repeat constructor; simpl; lra).
  split; [exact Hpos|]. split; [exact Hdown|].
  exact (shear_within_reactions 6 [(2, 6); (4, 3)] Hpos Hdown).
Defined.

(** ** Scaling the loads *)

(** X11.  In exact arithmetic the routine is homogeneous in the
    magnitudes: for a non-zero span, multiplying every magnitude by c
    multiplies R1, R2 and every shear and moment sample by c and leaves
    the positions unchanged. *)
Theorem scaling (length c : Q) (forces : list Load) :
  ~ length == 0 ->
  exists x shear moment R1 R2 shear' moment' R1' R2',
    compute_sfd_bmd length forces = Ok (x, shear, moment, R1, R2)
    /\ compute_sfd_bmd length (scale_loads c forces)
       = Ok (x, shear', moment', R1', R2')
    /\ R1' == c * R1 /\ R2' == c * R2
    /\ forall i xi,
         nth_error x i = Some xi ->
         exists V V' M M',
           nth_error shear i = Some V /\ nth_error shear' i = Some V'
           /\ nth_error moment i = Some M /\ nth_error moment' i = Some M'
           /\ V' == c * V /\ M' == c * M.
Proof.
  intros Hnz. rewrite !(compute_sfd_bmd_nonzero _ _ Hnz). cbv zeta.
  do 9 eexists. split; [reflexivity|]. split; [reflexivity|].
  assert (Hscale : forall term term' : Load -> Q,
             (forall f, term' (fst f, c * snd f) == term f * c) ->
             Py.sum (map term' (scale_loads c forces))
             == c * Py.sum (map term forces)).
  { intros term term' Hterm. unfold scale_loads.
    rewrite map_map, (Qmult_comm c), <- sum_map_scale.
    apply sum_map_pointwise. intros f _. apply Hterm. }
  split; [|split].
  - rewrite !reaction_R1_terms. apply Hscale.
    intros [a P]. cbn [fst snd]. now field.
  - rewrite !reaction_R2_terms. apply Hscale.
    intros [a P]. cbn [fst snd]. now field.
  - intros i xi Hxi. do 4 eexists.
    repeat (split; [apply nth_error_samples, Hxi|]).
    rewrite !shear_at_terms, !moment_at_terms.
    split; apply Hscale; intros [a P];
      unfold shear_term, moment_term; cbn [fst snd];
      destruct (Qle_bool a xi); now field.
Qed.

Lemma scaling_witness :
  ~ 6 == 0
  /\ exists x shear moment R1 R2 shear' moment' R1' R2',
       compute_sfd_bmd 6 [(2, 6); (4, 3)] = Ok (x, shear, moment, R1, R2)
       /\ compute_sfd_bmd 6 (scale_loads (-2) [(2, 6); (4, 3)])
          = Ok (x, shear', moment', R1', R2')
       /\ R1' == -2 * R1 /\ R2' == -2 * R2
       /\ forall i xi,
            nth_error x i = Some xi ->
            exists V V' M M',
              nth_error shear i = Some V /\ nth_error shear' i = Some V'
              /\ nth_error moment i = Some M /\ nth_error moment' i = Some M'
              /\ V' == -2 * V /\ M' == -2 * M.
Proof.
  assert (Hnz : ~ 6 == 0) by (intros H; discriminate H).
  split; [exact Hnz|].
  exact (scaling 6 (-2) [(2, 6); (4, 3)] Hnz).
Defined.

(** ** The beam seen from its other end *)

Lemma moment_at_Qeq (R1 : Q) (forces : list Load) (x x' : Q) :
  x == x' -> moment_at R1 forces x == moment_at R1 forces x'.
Proof.
  intros Hx. rewrite !moment_at_closed, (loads_upto_Qeq _ _ _ Hx).
  assert (Hm : moment_about x (loads_upto x' forces)
               == moment_about x' (loads_upto x' forces)).
  { unfold moment_about. apply sum_map_pointwise.
    intros f _. now rewrite Hx. }
  now rewrite Hm, Hx.
Qed.

Lemma moment_term_mirror (length xi a P : Q) :
  ~ length == 0 ->
  moment_term length (length - xi) (length - a, P)
  == moment_term length xi (a, P).
Proof.
  intros Hnz. unfold moment_term. cbn [fst snd].
  destruct (Qle_bool (length - a) (length - xi)) eqn:E;
    destruct (Qle_bool a xi) eqn:E'.
  - apply Qle_bool_iff in E, E'.
    assert (Heq : a == xi) by lra. rewrite Heq. now field.
  - now field.
  - now field.
  - exfalso.
    destruct (Qlt_le_dec xi a) as [H|H].
    + assert (H' : length - a <= length - xi) by lra.
      apply Qle_bool_iff in H'. congruence.
    + apply Qle_bool_iff in H. congruence.
Qed.

Lemma grid_mirror (length : Q) (i : nat) (xi xi' : Q) :
  nth_error (Np.linspace 0 length N_SAMPLES) i = Some xi ->
  nth_error (Np.linspace 0 length N_SAMPLES) (399 - i) = Some xi' ->
  xi' == length - xi.
Proof.
  intros Hxi Hxi'.
  apply grid_nth in Hxi as [Hi Hxi]. apply grid_nth in Hxi' as [_ Hxi'].
  rewrite Hxi, Hxi'.
  assert (Hsum : Np.of_nat (399 - i) == 399 - Np.of_nat i).
  { unfold Np.of_nat. rewrite Nat2Z.inj_sub by lia.
    unfold Z.sub. rewrite inject_Z_plus, inject_Z_opp. reflexivity. }
  rewrite Hsum. field.
Qed.

(** X12.  Mirror symmetry, in exact arithmetic: for a non-zero span,
    moving every load from position a to length - a swaps the two
    reactions and reverses the moment sequence (sample 399 - i of the
    mirrored beam equals sample i of the original). *)
Theorem mirror_symmetry (length : Q) (forces : list Load) :
  ~ length == 0 ->
  exists x shear moment R1 R2 shear' moment' R1' R2',
    compute_sfd_bmd length forces = Ok (x, shear, moment, R1, R2)
    /\ compute_sfd_bmd length (mirror length forces)
       = Ok (x, shear', moment', R1', R2')
    /\ R1' == R2 /\ R2' == R1
    /\ forall i M,
         nth_error moment i = Some M ->
         exists M', nth_error moment' (399 - i) = Some M' /\ M' == M.
Proof.
  intros Hnz. rewrite !(compute_sfd_bmd_nonzero _ _ Hnz). cbv zeta.
  do 9 eexists. split; [reflexivity|]. split; [reflexivity|].
  split; [|split].
  - rewrite reaction_R1_terms, reaction_R2_terms. unfold mirror.
    rewrite map_map. apply sum_map_pointwise.
    intros [a P] _. cbn [fst snd]. now field.
  - rewrite reaction_R1_terms, reaction_R2_terms. unfold mirror.
    rewrite map_map. apply sum_map_pointwise.
    intros [a P] _. cbn [fst snd]. now field.
  - intros i M HM. rewrite nth_error_map in HM.
    destruct (nth_error (Np.linspace 0 length N_SAMPLES) i) as [xi|] eqn:Hxi;
      [|discriminate].
    injection HM as <-.
    assert (Hi : (i < 400)%nat) by (apply grid_nth in Hxi; tauto).
    destruct (nth_error (Np.linspace 0 length N_SAMPLES) (399 - i))
      as [xi'|] eqn:Hxi'.
    2:{ apply nth_error_None in Hxi'.
        pose proof (linspace_length 0 length 398) as Hlen.
        change (Np.linspace 0 length (S (S 398)))
          with (Np.linspace 0 length N_SAMPLES) in Hlen.
        lia. }
    eexists. split; [apply nth_error_samples, Hxi'|].
    rewrite (moment_at_Qeq _ _ _ _ (grid_mirror _ _ _ _ Hxi Hxi')).
    rewrite !moment_at_terms. unfold mirror. rewrite map_map.
    apply sum_map_pointwise. intros [a P] _. cbn [fst snd].
    now apply moment_term_mirror.
Qed.

Lemma mirror_symmetry_witness :
  ~ 6 == 0
  /\ exists x shear moment R1 R2 shear' moment' R1' R2',
       compute_sfd_bmd 6 [(2, 6); (5, 3)] = Ok (x, shear, moment, R1, R2)
       /\ compute_sfd_bmd 6 (mirror 6 [(2, 6); (5, 3)])
          = Ok (x, shear', moment', R1', R2')
       /\ R1' == R2 /\ R2' == R1
       /\ forall i M,
            nth_error moment i = Some M ->
            exists M', nth_error moment' (399 - i) = Some M' /\ M' == M.
Proof.
  assert (Hnz : ~ 6 == 0) by (intros H; discriminate H).
  split; [exact Hnz|].
  exact (mirror_symmetry 6 [(2, 6); (5, 3)] Hnz).
Defined.

(** ** Degenerate spans *)

(** X13.  Without loads nothing is divided: for every length, zero and
    negative ones included, the routine returns R1 = R2 = 0 and 400 shear
    and 400 moment samples, all zero. *)
Theorem no_loads_any_span (length : Q) :
  exists x shear moment R1 R2,
    compute_sfd_bmd length [] = Ok (x, shear, moment, R1, R2)
    /\ R1 == 0 /\ R2 == 0
    /\ List.length x = 400%nat
    /\ List.length shear = 400%nat
    /\ List.length moment = 400%nat
    /\ Forall (fun V => V == 0) shear
    /\ Forall (fun M => M == 0) moment.
Proof.
  unfold compute_sfd_bmd. cbn [list_comp bind].
  rewrite sample_loop_map.
  pose proof (linspace_length 0 length 398) as Hlen.
  change (S (S 398)) with N_SAMPLES in Hlen.
  do 5 eexists. split; [reflexivity|].
  split; [reflexivity|]. split; [reflexivity|].
  split; [exact Hlen|].
  split; [now rewrite length_map|]. split; [now rewrite length_map|].
  split; apply Forall_map, Forall_forall; intros xi _.
  - reflexivity.
  - unfold moment_at, sample_at. simpl. rewrite sum_nil. ring.
Qed.

(** X14.  With a negative length the routine still returns: the positions
    run from 0 down to [length], strictly decreasing. *)
Theorem negative_span_grid (length : Q) (forces : list Load) :
  length < 0 ->
  exists x shear moment R1 R2,
    compute_sfd_bmd length forces = Ok (x, shear, moment, R1, R2)
    /\ (exists x0, nth_error x 0 = Some x0 /\ x0 == 0)
    /\ nth_error x 399 = Some length
    /\ forall i j xi xj,
         (i < j)%nat ->
         nth_error x i = Some xi -> nth_error x j = Some xj ->
         xj < xi.
Proof.
  intros Hneg.
  assert (Hnz : ~ length == 0) by lra.
  rewrite (compute_sfd_bmd_nonzero _ _ Hnz). cbv zeta.
  do 5 eexists. split; [reflexivity|].
  split; [apply grid_first|]. split; [apply last_position|].
  intros i j xi xj Hij Hxi Hxj.
  apply grid_nth in Hxi as [_ Hxi]. apply grid_nth in Hxj as [_ Hxj].
  rewrite Hxi, Hxj.
  assert (Hstep : 0 < - (length / 399)).
  { setoid_replace (- (length / 399)) with ((- length) / 399) by field.
    apply Qlt_shift_div_l; lra. }
  pose proof (of_nat_lt _ _ Hij) as Hlt.
  assert (Hprod : 0 < (Np.of_nat j - Np.of_nat i) * - (length / 399)).
  { apply Qmult_lt_0_compat; lra. }
  setoid_replace (Np.of_nat i * (length / 399))
    with (Np.of_nat j * (length / 399)
          + (Np.of_nat j - Np.of_nat i) * - (length / 399)) by ring.
  set (p := (Np.of_nat j - Np.of_nat i) * - (length / 399)) in *.
  set (q := Np.of_nat j * (length / 399)).
  clearbody p q. lra.
Qed.

Lemma negative_span_grid_witness :
  -2 < 0
  /\ exists x shear moment R1 R2,
       compute_sfd_bmd (-2) [(-3, 4); (-2, 4)] = Ok (x, shear, moment, R1, R2)
       /\ (exists x0, nth_error x 0 = Some x0 /\ x0 == 0)
       /\ nth_error x 399 = Some (-2)
       /\ forall i j xi xj,
            (i < j)%nat ->
            nth_error x i = Some xi -> nth_error x j = Some xj ->
            xj < xi.
Proof.
  assert (Hneg : -2 < 0) by reflexivity.
  split; [exact Hneg|].
  exact (negative_span_grid (-2) [(-3, 4); (-2, 4)] Hneg).
Defined.

(** * The script around the evaluator *)

(** ** The span read from the table *)




(** ** The plotted coordinates *)

Lemma round_half_even_near (q : Q) :
  q - (1 # 2) <= inject_Z (round_half_even q)
  /\ inject_Z (round_half_even q) <= q + (1 # 2).
Proof.
  unfold round_half_even.
  pose proof (Qfloor_le q) as Hlo. pose proof (Qlt_floor q) as Hhi.
  rewrite inject_Z_plus in Hhi. change (inject_Z 1) with 1 in Hhi.
  destruct (Qcompare (q - inject_Z (Qfloor q)) (1 # 2)) eqn:E.
  - apply Qeq_alt in E.
    destruct (Z.even (Qfloor q)).
    + split; lra.
    + rewrite inject_Z_plus. change (inject_Z 1) with 1. split; lra.
  - apply Qlt_alt in E. split; lra.
  - apply Qgt_alt in E.
    rewrite inject_Z_plus. change (inject_Z 1) with 1. split; lra.
Qed.

(** Rounding to three digits moves a number by at most 0.0005. *)
Lemma round3_near (v : Q) :
  v - (1 # 2000) <= round v 3 /\ round v 3 <= v + (1 # 2000).
Proof.
  unfold round. change (Qpower 10 (Z.of_nat 3)) with 1000.
  destruct (round_half_even_near (v * 1000)) as [Hlo Hhi].
  set (k := inject_Z (round_half_even (v * 1000))) in *. clearbody k.
  setoid_replace (k / 1000) with (k * (1 # 1000)) by field.
  split; lra.
Qed.

Lemma index_comp_total {A B} (body : A -> option B) (g : A -> B)
  (l : list A) :
  (forall v, In v l -> body v = Some (g v)) ->
  index_comp body l = Some (map g l).
Proof.
  induction l as [|v l IH]; intros Hbody; simpl.
  - reflexivity.
  - rewrite (Hbody v) by now left.
    rewrite IH; [reflexivity|]. intros w Hw. apply Hbody. now right.
Qed.

(** On two sequences of the same length no index is out of range, and the
    comprehension pairs the rounded entries index by index. *)
Lemma rounded_coords_same_length (x ys : list Q) :
  List.length ys = List.length x ->
  exists coords,
    rounded_coords x ys = Some coords
    /\ List.length coords = List.length x
    /\ forall i xi yi,
         nth_error x i = Some xi -> nth_error ys i = Some yi ->
         nth_error coords i = Some (round xi 3, round yi 3).
Proof.
  intros Hlen. unfold rounded_coords.
  exists (map (fun i => (round (nth i x 0) 3, round (nth i ys 0) 3))
            (seq 0 (List.length x))).
  split; [|split].
  - apply index_comp_total. intros i Hi. apply in_seq in Hi.
    rewrite (nth_error_nth' x 0), (nth_error_nth' ys 0) by lia.
    reflexivity.
  - now rewrite length_map, length_seq.
  - intros i xi yi Hxi Hyi.
    assert (Hi : (i < List.length x)%nat)
      by (apply nth_error_Some; congruence).
    rewrite nth_error_map, nth_error_seq.
    apply Nat.ltb_lt in Hi. rewrite Hi. cbn [option_map Nat.add].
    now rewrite (nth_error_nth _ _ 0 Hxi), (nth_error_nth _ _ 0 Hyi).
Qed.

(** X16.  The coordinates the script plots: for a non-zero span both
    comprehensions succeed (no index is out of range) and give 400 pairs
    each; pair i is sample i rounded to three digits, so the plotted
    position, shear and moment each differ from the computed value by at
    most 0.0005. *)
Theorem plotted_coordinates (length : Q) (forces : list Load) :
  ~ length == 0 ->
  exists x shear moment R1 R2 sfd_coords bmd_coords,
    compute_sfd_bmd length forces = Ok (x, shear, moment, R1, R2)
    /\ rounded_coords x shear = Some sfd_coords
    /\ rounded_coords x moment = Some bmd_coords
    /\ List.length sfd_coords = 400%nat
    /\ List.length bmd_coords = 400%nat
    /\ forall i xi V M,
         nth_error x i = Some xi ->
         nth_error shear i = Some V -> nth_error moment i = Some M ->
         exists cx cV cM,
           nth_error sfd_coords i = Some (cx, cV)
           /\ nth_error bmd_coords i = Some (cx, cM)
           /\ (xi - (1 # 2000) <= cx /\ cx <= xi + (1 # 2000))
           /\ (V - (1 # 2000) <= cV /\ cV <= V + (1 # 2000))
           /\ (M - (1 # 2000) <= cM /\ cM <= M + (1 # 2000)).
Proof.
  intros Hnz. rewrite (compute_sfd_bmd_nonzero _ _ Hnz). cbv zeta.
  pose proof (linspace_length 0 length 398) as Hlen.
  change (S (S 398)) with N_SAMPLES in Hlen.
  set (x := Np.linspace 0 length N_SAMPLES) in *.
  set (R1 := reaction_R1 length forces).
  destruct (rounded_coords_same_length x (map (shear_at R1 forces) x))
    as [sfd [Hsfd [Hlsfd Hnsfd]]]; [apply length_map|].
  destruct (rounded_coords_same_length x (map (moment_at R1 forces) x))
    as [bmd [Hbmd [Hlbmd Hnbmd]]]; [apply length_map|].
  exists x, (map (shear_at R1 forces) x), (map (moment_at R1 forces) x),
    R1, (reaction_R2 length forces), sfd, bmd.
  split; [reflexivity|]. split; [exact Hsfd|]. split; [exact Hbmd|].
  split; [now rewrite Hlsfd|]. split; [now rewrite Hlbmd|].
  intros i xi V M Hxi HV HM.
  exists (round xi 3), (round V 3), (round M 3).
  split; [now apply Hnsfd|]. split; [now apply Hnbmd|].
  split; [apply round3_near|]. split; apply round3_near.
Qed.

Lemma plotted_coordinates_witness :
  ~ 6 == 0
  /\ exists x shear moment R1 R2 sfd_coords bmd_coords,
       compute_sfd_bmd 6 [(2, 6); (4, 3)] = Ok (x, shear, moment, R1, R2)
       /\ rounded_coords x shear = Some sfd_coords
       /\ rounded_coords x moment = Some bmd_coords
       /\ List.length sfd_coords = 400%nat
       /\ List.length bmd_coords = 400%nat
       /\ forall i xi V M,
            nth_error x i = Some xi ->
            nth_error shear i = Some V -> nth_error moment i = Some M ->
            exists cx cV cM,
              nth_error sfd_coords i = Some (cx, cV)
              /\ nth_error bmd_coords i = Some (cx, cM)
              /\ (xi - (1 # 2000) <= cx /\ cx <= xi + (1 # 2000))
              /\ (V - (1 # 2000) <= cV /\ cV <= V + (1 # 2000))
              /\ (M - (1 # 2000) <= cM /\ cM <= M + (1 # 2000)).
Proof.
  assert (Hnz : ~ 6 == 0) by (intros H; discriminate H).
  split; [exact Hnz|].
  exact (plotted_coordinates 6 [(2, 6); (4, 3)] Hnz).
Defined.

(** * Loads sharing a position *)

(** X17.  In exact arithmetic two loads at the same position act as one
    load of the summed magnitude: for a non-zero span, replacing (a, P),
    (a, P') by (a, P + P') leaves positions, shear, moment, R1 and R2
    unchanged. *)
Theorem coincident_loads_merge (length a P P' : Q) (forces : list Load) :
  ~ length == 0 ->
  exists r r',
    compute_sfd_bmd length ((a, P) :: (a, P') :: forces) = Ok r
    /\ compute_sfd_bmd length ((a, P + P') :: forces) = Ok r'
    /\ same_outcome (Ok r) (Ok r').
Proof.
  intros Hnz. rewrite !(compute_sfd_bmd_nonzero _ _ Hnz). cbv zeta.
  do 2 eexists. split; [reflexivity|]. split; [reflexivity|].
  assert (HR1 : reaction_R1 length ((a, P) :: (a, P') :: forces)
                == reaction_R1 length ((a, P + P') :: forces)).
  { rewrite !reaction_R1_terms. cbn [map fst snd].
    rewrite !sum_cons. now field. }
  assert (HR2 : reaction_R2 length ((a, P) :: (a, P') :: forces)
                == reaction_R2 length ((a, P + P') :: forces)).
  { rewrite !reaction_R2_terms. cbn [map fst snd].
    rewrite !sum_cons. now field. }
  cbn [same_outcome].
  split; [apply Qeq_list_refl|].
  split; [|split; [|split; assumption]].
  - apply Qeq_list_map. intros xi.
    rewrite !shear_at_terms. cbn [map]. rewrite !sum_cons.
    unfold shear_term. cbn [fst snd].
    destruct (Qle_bool a xi); now field.
  - apply Qeq_list_map. intros xi.
    rewrite !moment_at_terms. cbn [map]. rewrite !sum_cons.
    unfold moment_term. cbn [fst snd].
    destruct (Qle_bool a xi); now field.
Qed.

Lemma coincident_loads_merge_witness :
  ~ 6 == 0
  /\ exists r r',
       compute_sfd_bmd 6 [(2, 6); (2, 1); (4, 3)] = Ok r
       /\ compute_sfd_bmd 6 [(2, 6 + 1); (4, 3)] = Ok r'
       /\ same_outcome (Ok r) (Ok r').
Proof.
  assert (Hnz : ~ 6 == 0) by (intros H; discriminate H).
  split; [exact Hnz|].
  exact (coincident_loads_merge 6 2 6 1 [(4, 3)] Hnz).
Defined.

(** * The script's call on NumPy scalars *)

(** ** Where the reactions go wrong *)

(** C1.  The claim fails on the script's own call.  For the table of the
    loads (0, 3000000000) and (4000000000, 1) the span is the [int64]
    4000000000, both positions lie on it, and the product
    3000000000 * (4000000000 - 0) of the R1 formula wraps around to
    -6446744073709551616.  The call returns R1 = -1611686018.43 and R2 = 1,
    so R1 + R2 is not the total load 3000000001; at the last sample the
    shear is R1 - 3000000001 and the moment -18446744073709551616 instead
    of -R2 and 0. *)
Theorem int64_product_breaks_vertical_equilibrium :
  exists x shear moment R1 R2,
    BEAM_LENGTH_np
      (mkFrame (IntColumn [0; 4000000000]%Z) (IntColumn [3000000000; 1]%Z))
    = Some (NpInt64 4000000000)
    /\ compute_sfd_bmd_np (NpInt64 4000000000)
         (forces_np (mkFrame (IntColumn [0; 4000000000]%Z)
                       (IntColumn [3000000000; 1]%Z)))
       = Returned (x, shear, moment, Finite R1, Finite R2)
    /\ map load_val
         (forces_np (mkFrame (IntColumn [0; 4000000000]%Z)
                       (IntColumn [3000000000; 1]%Z)))
       = [(0, 3000000000); (4000000000, 1)]
    /\ 0 < 4000000000
    /\ in_span 4000000000 [(0, 3000000000); (4000000000, 1)]
    /\ R1 == -6446744073709551616 / 4000000000
    /\ R2 == 1
    /\ total_load [(0, 3000000000); (4000000000, 1)] == 3000000001
    /\ ~ R1 + R2 == total_load [(0, 3000000000); (4000000000, 1)]
    /\ exists V M,
         nth_error shear 399 = Some (Finite V)
         /\ nth_error moment 399 = Some (Finite M)
         /\ V == R1 - 3000000001
         /\ M == -18446744073709551616.
Proof.
  do 5 eexists.
  split; [reflexivity|].
  split; [vm_compute; reflexivity|].
  split; [reflexivity|].
  split; [reflexivity|].
  split; [repeat constructor; simpl; lra|].
  split; [vm_compute; reflexivity|].
  split; [vm_compute; reflexivity|].
  split; [vm_compute; reflexivity|].
  split; [intros H; vm_compute in H; discriminate H|].
  do 2 eexists.
  split; [vm_compute; reflexivity|].
  split; [vm_compute; reflexivity|].
  split; vm_compute; reflexivity.
Qed.

(** C2.  The claim fails on the same call and for the same reason: with
    the wrapped product, R1 * length is -6446744073709551616, while the sum
    of P * (length - a) over the loads is 12000000000000000000. *)
Theorem int64_product_breaks_moment_equilibrium :
  exists x shear moment R1 R2,
    compute_sfd_bmd_np (NpInt64 4000000000)
      (forces_np (mkFrame (IntColumn [0; 4000000000]%Z)
                    (IntColumn [3000000000; 1]%Z)))
    = Returned (x, shear, moment, Finite R1, Finite R2)
    /\ map load_val
         (forces_np (mkFrame (IntColumn [0; 4000000000]%Z)
                       (IntColumn [3000000000; 1]%Z)))
       = [(0, 3000000000); (4000000000, 1)]
    /\ 0 < 4000000000
    /\ in_span 4000000000 [(0, 3000000000); (4000000000, 1)]
    /\ R1 * 4000000000 == -6446744073709551616
    /\ far_moment 4000000000 [(0, 3000000000); (4000000000, 1)]
       == 12000000000000000000
    /\ ~ R1 * 4000000000
         == far_moment 4000000000 [(0, 3000000000); (4000000000, 1)].
Proof.
  do 5 eexists.
  split; [vm_compute; reflexivity|].
  split; [reflexivity|].
  split; [reflexivity|].
  split; [repeat constructor; simpl; lra|].
  split; [vm_compute; reflexivity|].
  split; [vm_compute; reflexivity|].
  intros H. vm_compute in H. discriminate H.
Qed.

(** ** The NumPy evaluation in closed form *)



Lemma true_divide_zero (n d : Q) :
  d == 0 -> is_finite (true_divide n d) = false.
Proof.
  intros Hd. unfold true_divide.
  apply Qeq_bool_iff in Hd. rewrite Hd.
  now destruct (Qcompare n 0).
Qed.



Lemma f_add_not_finite (x y : float64) :
  is_finite x = false \/ is_finite y = false ->
  is_finite (f_add x y) = false.
Proof.
  destruct x as [a|s|], y as [b|s'|]; simpl; intros [H|H];
    try discriminate; try reflexivity;
    now destruct (Bool.eqb s s').
Qed.

Lemma f_sum_not_finite (l : list float64) :
  l <> [] ->
  Forall (fun t => is_finite t = false) l ->
  is_finite (f_sum l) = false.
Proof.
  intros Hne Hall. unfold f_sum.
  assert (Hacc : forall l acc,
             Forall (fun t => is_finite t = false) l ->
             is_finite acc = false ->
             is_finite (fold_left f_add l acc) = false).
  { clear. induction l as [|t l IH]; intros acc Hall Hacc; simpl.
    - exact Hacc.
    - inversion Hall as [|? ? Ht Hl]; subst.
      apply IH; [exact Hl|]. apply f_add_not_finite. now right. }
  destruct l as [|t l]; [contradiction|].
  inversion Hall as [|? ? Ht Hl]; subst. cbn [fold_left].
  apply Hacc; [exact Hl|]. apply f_add_not_finite. now right.
Qed.

Lemma sample_loop_np_acc R1 forces x shear moment :
  fold_left
    (fun (acc : list float64 * list float64) xi =>
       let '(shear, moment) := acc in
       let '(V, M) := sample_at_np R1 forces xi in
       (shear ++ [V], moment ++ [M]))
    x (shear, moment)
  = (shear ++ map (fun xi => fst (sample_at_np R1 forces xi)) x,
     moment ++ map (fun xi => snd (sample_at_np R1 forces xi)) x).
Proof.
  revert shear moment.
  induction x as [|xi x IH]; intros shear moment; simpl.
  - now rewrite !app_nil_r.
  - destruct (sample_at_np R1 forces xi) as [V M] eqn:E.
    rewrite IH, <- !app_assoc. reflexivity.
Qed.

Lemma sample_loop_np_map R1 forces x :
  sample_loop_np R1 forces x
  = (map (fun xi => fst (sample_at_np R1 forces xi)) x,
     map (fun xi => snd (sample_at_np R1 forces xi)) x).
Proof. unfold sample_loop_np. now rewrite sample_loop_np_acc. Qed.



(** The part of the routine after the guard on the scalars. *)
Lemma compute_sfd_bmd_np_ok (length : npnum) (forces : list PyLoad) :
  scalars_ok length forces = true ->
  compute_sfd_bmd_np length forces
  = let x := Np.linspace 0 (np_val length) N_SAMPLES in
    let R1 :=
      f_sum (map (fun '(a, P) =>
                    np_truediv (np_rmul P (np_sub length a)) length)
               forces) in
    match outcome_comp (fun '(a, P) => np_rtruediv (py_mul P a) length) forces
    with
    | OutOfModel => OutOfModel
    | Returned t2 =>
        Returned (x, map (fun xi => fst (sample_at_np R1 forces xi)) x,
                  map (fun xi => snd (sample_at_np R1 forces xi)) x,
                  R1, f_sum t2)
    end.
Proof.
  intros Hok. unfold compute_sfd_bmd_np. rewrite Hok. cbn [negb]. cbv zeta.
  destruct (outcome_comp
              (fun '(a, P) => np_rtruediv (py_mul P a) length) forces);
    [|reflexivity].
  now rewrite sample_loop_np_map.
Qed.



Lemma outcome_comp_total {A B} (body : A -> outcome B) (g : A -> B)
  (l : list A) :
  (forall v, In v l -> body v = Returned (g v)) ->
  outcome_comp body l = Returned (map g l).
Proof.
  induction l as [|v l IH]; intros Hbody; simpl.
  - reflexivity.
  - rewrite (Hbody v) by now left.
    rewrite IH; [reflexivity|]. intros w Hw. apply Hbody. now right.
Qed.



Lemma np_rtruediv_returned (length : npnum) (a P : pynum) :
  no_overflow_at length (a, P) = true ->
  np_rtruediv (py_mul P a) length
  = Returned (true_divide (py_val (py_mul P a)) (np_val length)).
Proof.
  unfold no_overflow_at. cbn [fst snd].
  destruct length as [n|f], a as [a|a], P as [P|P];
    cbn [py_mul np_rtruediv py_val]; intros H; try reflexivity.
  apply andb_prop in H as [_ H]. now rewrite H.
Qed.


Lemma np_R2_returned (length : npnum) (forces : list PyLoad) :
  no_overflow length forces = true ->
  outcome_comp (fun '(a, P) => np_rtruediv (py_mul P a) length) forces
  = Returned
      (map (fun f : PyLoad =>
              true_divide (py_val (py_mul (snd f) (fst f))) (np_val length))
         forces).
Proof.
  intros Hno. apply outcome_comp_total.
  intros [a P] Hin. cbn [fst snd]. apply np_rtruediv_returned.
  unfold no_overflow in Hno. rewrite forallb_forall in Hno. now apply Hno.
Qed.





(** * When the routine fails *)


(** * The script's call against exact arithmetic *)







(** ** The span read from the table *)





(** ** A zero span on the script's call *)

Lemma f_sub_not_finite (x y : float64) :
  is_finite x = false -> is_finite (f_sub x y) = false.
Proof.
  intros Hx. destruct x as [a|s|]; [discriminate| |]; destruct y; simpl;
    try reflexivity.
  now destruct (Bool.eqb s (negb negative)).
Qed.

Lemma f_mul_not_finite (x y : float64) :
  is_finite x = false -> is_finite (f_mul x y) = false.
Proof.
  intros Hx. destruct x as [a|s|]; [discriminate| |]; destruct y as [b|s'|];
    simpl; try reflexivity.
  now destruct (Qcompare b 0).
Qed.

Lemma sample_at_np_not_finite (R1 : float64) (forces : list PyLoad) (xi : Q) :
  is_finite R1 = false ->
  is_finite (fst (sample_at_np R1 forces xi)) = false
  /\ is_finite (snd (sample_at_np R1 forces xi)) = false.
Proof.
  intros HR1. unfold sample_at_np.
  assert (Hfold : forall forces V M,
             is_finite V = false -> is_finite M = false ->
             is_finite (fst (fold_left (apply_load_np xi) forces (V, M)))
             = false
             /\ is_finite (snd (fold_left (apply_load_np xi) forces (V, M)))
                = false).
  { clear. induction forces as [|[a P] forces IH]; intros V M HV HM.
    - now split.
    - cbn [fold_left apply_load_np].
      destruct (Qle_bool (py_val a) xi).
      + apply IH; now apply f_sub_not_finite.
      + now apply IH. }
  apply Hfold; [exact HR1|now apply f_mul_not_finite].
Qed.

(** X19.  On the script's call a zero span raises nothing: when the
    scalars fit and nothing overflows, a call with length = 0 and at least
    one load returns, with R1, R2 and every shear and moment sample equal
    to nan or an infinity. *)
Theorem zero_span_call_returns_nan (length : npnum) (forces : list PyLoad) :
  scalars_ok length forces = true ->
  no_overflow length forces = true ->
  np_val length == 0 ->
  forces <> [] ->
  exists x shear moment R1 R2,
    compute_sfd_bmd_np length forces = Returned (x, shear, moment, R1, R2)
    /\ List.length shear = 400%nat
    /\ List.length moment = 400%nat
    /\ is_finite R1 = false /\ is_finite R2 = false
    /\ Forall (fun V => is_finite V = false) shear
    /\ Forall (fun M => is_finite M = false) moment.
Proof.
  intros Hok Hno Hz Hne.
  rewrite (compute_sfd_bmd_np_ok _ _ Hok). cbv zeta.
  rewrite (np_R2_returned _ _ Hno).
  pose proof (linspace_length 0 (np_val length) 398) as Hlen.
  change (S (S 398)) with N_SAMPLES in Hlen.
  assert (HR1 : is_finite
                  (f_sum (map (fun '(a, P) =>
                                 np_truediv (np_rmul P (np_sub length a))
                                   length) forces)) = false).
  { apply f_sum_not_finite.
    - destruct forces; [contradiction|discriminate].
    - apply Forall_map, Forall_forall. intros [a P] _.
      unfold np_truediv. now apply true_divide_zero. }
  do 5 eexists. split; [reflexivity|].
  split; [now rewrite length_map|]. split; [now rewrite length_map|].
  split; [exact HR1|].
  split.
  { apply f_sum_not_finite.
    - destruct forces; [contradiction|discriminate].
    - apply Forall_map, Forall_forall. intros f _.
      now apply true_divide_zero. }
  split; apply Forall_map, Forall_forall; intros xi _;
    now apply sample_at_np_not_finite.
Qed.

Lemma zero_span_call_returns_nan_witness :
  scalars_ok (NpInt64 0) [(PyInt (-3), PyInt 5); (PyInt 0, PyInt 2)] = true
  /\ no_overflow (NpInt64 0) [(PyInt (-3), PyInt 5); (PyInt 0, PyInt 2)]
     = true
  /\ np_val (NpInt64 0) == 0
  /\ [(PyInt (-3), PyInt 5); (PyInt 0, PyInt 2)] <> []
  /\ exists x shear moment R1 R2,
       compute_sfd_bmd_np (NpInt64 0)
         [(PyInt (-3), PyInt 5); (PyInt 0, PyInt 2)]
       = Returned (x, shear, moment, R1, R2)
       /\ List.length shear = 400%nat
       /\ List.length moment = 400%nat
       /\ is_finite R1 = false /\ is_finite R2 = false
       /\ Forall (fun V => is_finite V = false) shear
       /\ Forall (fun M => is_finite M = false) moment.
Proof.
  assert (Hok : scalars_ok (NpInt64 0)
                  [(PyInt (-3), PyInt 5); (PyInt 0, PyInt 2)] = true)
    by reflexivity.
  assert (Hno : no_overflow (NpInt64 0)
                  [(PyInt (-3), PyInt 5); (PyInt 0, PyInt 2)] = true)
    by reflexivity.
  assert (Hz : np_val (NpInt64 0) == 0) by reflexivity.
  assert (Hne : [(PyInt (-3), PyInt 5); (PyInt 0, PyInt 2)] <> [])
    by discriminate.
  split; [exact Hok|]. split; [exact Hno|]. split; [exact Hz|].
  split; [exact Hne|].
  exact (zero_span_call_returns_nan _ _ Hok Hno Hz Hne).
Defined.
